(** * observability_lab: a shallow embedding of [app.py]

    The service is a Flask application with four routes, one
    [before_request] hook, one [after_request] hook and a memoised compute
    function.  Everything the program does to the outside (sleeping, reading
    the clock, drawing random numbers, opening spans, feeding metric
    instruments, writing log lines) is kept in an explicit [world]; handlers
    are computations in a state-and-exception monad over that world.

    Python values are kept as the program has them: [int] is [Z] (unbounded),
    [float] is the kernel's binary64 [float], [str] is the [string] of its
    UTF-8 encoding, a [dict] is an association list in insertion order. *)

From Stdlib Require Import ZArith List String Ascii Bool Lia.
From Stdlib Require Import DecimalString HexadecimalString.
From Stdlib Require Import Floats.
Import ListNotations.

Open Scope string_scope.
Open Scope list_scope.
Open Scope Z_scope.

#[local] Set Warnings "-inexact-float".

(* ================================================================= *)
(** ** Exceptions and results *)

(** The exceptions the program can meet.  Everything but [BaseExc] derives
    from Python's [Exception]; [BaseExc] stands for the classes that derive
    from [BaseException] only ([KeyboardInterrupt], [SystemExit],
    [GeneratorExit]). *)
Inductive exn : Type :=
| ValueError (msg : string)
| OverflowError (msg : string)
| ZeroDivisionError (msg : string)
| HTTPException (code : Z)
| OtherException (name : string)
| BaseExc (name : string).

Definition is_Exception (e : exn) : bool :=
  match e with
  | BaseExc _ => false
  | _ => true
  end.

Inductive outcome (A : Type) : Type :=
| Ret (a : A)
| Raise (e : exn).
Arguments Ret {A} a.
Arguments Raise {A} e.

(* ================================================================= *)
(** ** Python builtins used by the program *)

Module Py.

(** *** Text *)

Definition ord (c : ascii) : Z := Z.of_N (N_of_ascii c).

Definition isdigit (c : ascii) : bool := (48 <=? ord c) && (ord c <=? 57).

(** Whitespace skipped by the numeric conversions: tab, line feed, vertical
    tab, form feed, carriage return and space. *)
Definition isspace (c : ascii) : bool :=
  ((9 <=? ord c) && (ord c <=? 13)) || (ord c =? 32).

Definition lower (c : ascii) : ascii :=
  if (65 <=? ord c) && (ord c <=? 90)
  then ascii_of_N (N_of_ascii c + 32)
  else c.

Fixpoint lstrip (l : list ascii) : list ascii :=
  match l with
  | c :: r => if isspace c then lstrip r else l
  | [] => []
  end.

Definition strip (l : list ascii) : list ascii :=
  rev (lstrip (rev (lstrip l))).

Definition split_sign (l : list ascii) : bool * list ascii :=
  match l with
  | "-"%char :: r => (true, r)
  | "+"%char :: r => (false, r)
  | _ => (false, l)
  end.

Definition digit_value (c : ascii) : Z := ord c - 48.

(** *** Text beyond ASCII

    A [str] is kept as its UTF-8 encoding.  Before they read a number,
    [int] and [float] rewrite the characters beyond ASCII: a Unicode space
    becomes a space, a Unicode decimal digit the ASCII digit of its value,
    and any other character a question mark, which no number contains.  The
    tables are those of Unicode 14 (CPython 3.11): the decimal digits come
    in blocks of ten, listed by the code point of their zero. *)
Definition decimal_blocks : list Z :=
  [0x660; 0x6f0; 0x7c0; 0x966; 0x9e6; 0xa66; 0xae6; 0xb66; 0xbe6; 0xc66;
   0xce6; 0xd66; 0xde6; 0xe50; 0xed0; 0xf20; 0x1040; 0x1090; 0x17e0;
   0x1810; 0x1946; 0x19d0; 0x1a80; 0x1a90; 0x1b50; 0x1bb0; 0x1c40; 0x1c50;
   0xa620; 0xa8d0; 0xa900; 0xa9d0; 0xa9f0; 0xaa50; 0xabf0; 0xff10; 0x104a0;
   0x10d30; 0x11066; 0x110f0; 0x11136; 0x111d0; 0x112f0; 0x11450; 0x114d0;
   0x11650; 0x116c0; 0x11730; 0x118e0; 0x11950; 0x11c50; 0x11d50; 0x11da0;
   0x16a60; 0x16ac0; 0x16b50; 0x1d7ce; 0x1d7d8; 0x1d7e2; 0x1d7ec; 0x1d7f6;
   0x1e140; 0x1e2f0; 0x1e950; 0x1fbf0].

Definition unicode_spaces : list Z :=
  [0x85; 0xa0; 0x1680; 0x2000; 0x2001; 0x2002; 0x2003; 0x2004; 0x2005;
   0x2006; 0x2007; 0x2008; 0x2009; 0x200a; 0x2028; 0x2029; 0x202f; 0x205f;
   0x3000].

Definition to_decimal (cp : Z) : option Z :=
  option_map (fun zero => cp - zero)
    (find (fun zero => (zero <=? cp) && (cp <? zero + 10)) decimal_blocks).

Definition transform_char (cp : Z) : ascii :=
  if existsb (Z.eqb cp) unicode_spaces then " "%char
  else
    match to_decimal cp with
    | Some d => ascii_of_N (Z.to_N (48 + d))
    | None => "?"%char
    end.

(** A continuation byte of UTF-8. *)
Definition is_continuation (c : ascii) : bool :=
  (128 <=? ord c) && (ord c <? 192).

Definition payload (c : ascii) : Z := ord c - 128.

(** The text with its characters beyond ASCII rewritten; a byte sequence
    that encodes no character is rewritten as a question mark. *)
Fixpoint to_ascii_text (l : list ascii) : list ascii :=
  match l with
  | [] => []
  | c :: r =>
      if ord c <? 128 then c :: to_ascii_text r
      else
        match r with
        | c1 :: r1 =>
            if (194 <=? ord c) && (ord c <? 224) && is_continuation c1
            then transform_char ((ord c - 192) * 64 + payload c1)
                   :: to_ascii_text r1
            else
              match r1 with
              | c2 :: r2 =>
                  let cp3 :=
                    (ord c - 224) * 4096 + payload c1 * 64 + payload c2 in
                  if (224 <=? ord c) && (ord c <? 240) && is_continuation c1
                     && is_continuation c2 && (2048 <=? cp3)
                  then transform_char cp3 :: to_ascii_text r2
                  else
                    match r2 with
                    | c3 :: r3 =>
                        let cp4 :=
                          (ord c - 240) * 262144 + payload c1 * 4096
                          + payload c2 * 64 + payload c3 in
                        if (240 <=? ord c) && (ord c <? 245)
                           && is_continuation c1 && is_continuation c2
                           && is_continuation c3
                           && (65536 <=? cp4) && (cp4 <? 1114112)
                        then transform_char cp4 :: to_ascii_text r3
                        else "?"%char :: to_ascii_text r
                    | [] => "?"%char :: to_ascii_text r
                    end
              | [] => "?"%char :: to_ascii_text r
              end
        | [] => ["?"%char]
        end
  end.

(** *** [int(str)]

    Base-10 conversion of text: optional surrounding whitespace, an optional
    sign, then decimal digits in which single underscores may separate
    digits.  Anything else is a [ValueError].

    CPython bounds the conversions between [int] and decimal text: with the
    default of [sys.set_int_max_str_digits] (3.11 and later, and the
    security releases of the earlier versions), a numeral of more than 4300
    digits is a [ValueError] in either direction. *)
Definition int_max_str_digits : nat := 4300.

Definition digit_limit_error : exn :=
  ValueError "Exceeds the limit (4300 digits) for integer string conversion".

(** [z] takes more than [int_max_str_digits] decimal digits to write. *)
Definition exceeds_str_digits (z : Z) : bool :=
  10 ^ Z.of_nat int_max_str_digits <=? Z.abs z.
Arguments exceeds_str_digits : simpl never.

Fixpoint int_digits (acc : Z) (after_digit : bool) (l : list ascii)
  : option Z :=
  match l with
  | [] => if after_digit then Some acc else None
  | c :: r =>
      if isdigit c then int_digits (10 * acc + digit_value c) true r
      else if Ascii.eqb c "_"
           then (if after_digit then int_digits acc false r else None)
           else None
  end.

(** The numeral at the head of the text: its digits and underscores, and
    what follows them. *)
Fixpoint take_numeral (l : list ascii) : list ascii * list ascii :=
  match l with
  | c :: r =>
      if isdigit c || Ascii.eqb c "_"
      then let (ds, rest) := take_numeral r in (c :: ds, rest)
      else ([], l)
  | [] => ([], [])
  end.

(** The numeral is scanned first (its underscores must be well placed), its
    digits are counted against the limit, leading zeros included, and only
    then is the rest of the text looked at. *)
Definition int_of_str (s : string) : outcome Z :=
  let (neg, body) :=
    split_sign (strip (to_ascii_text (list_ascii_of_string s))) in
  let (numeral, rest) := take_numeral body in
  match int_digits 0 false numeral with
  | Some n =>
      if (int_max_str_digits <? List.length (filter isdigit numeral))%nat
      then Raise digit_limit_error
      else
        match rest with
        | [] => Ret (if neg then - n else n)
        | _ => Raise (ValueError "invalid literal for int() with base 10")
        end
  | None => Raise (ValueError "invalid literal for int() with base 10")
  end.

(** *** [str(int)] and [hex(int)] *)

Definition str_of_int (z : Z) : string :=
  DecimalString.NilZero.string_of_int (Z.to_int z).

Definition hex (z : Z) : string :=
  String.append (if z <? 0 then "-0x" else "0x")
    (HexadecimalString.NilZero.string_of_uint (N.to_hex_uint (Z.abs_N z))).

(** *** [float(str)]

    [float] accepts a decimal literal (digits, an optional fraction, an
    optional exponent), or [inf], [infinity], [nan] in any letter case, all
    with an optional sign and surrounding whitespace.  Underscores must sit
    between two digits and are dropped first.  The literal is rounded to the
    nearest binary64 value, ties to even; a literal too large becomes an
    infinity. *)
Fixpoint drop_underscores (after_digit : bool) (l : list ascii)
  : option (list ascii) :=
  match l with
  | [] => Some []
  | c :: r =>
      if Ascii.eqb c "_" then
        if after_digit && match r with d :: _ => isdigit d | [] => false end
        then drop_underscores false r
        else None
      else option_map (cons c) (drop_underscores (isdigit c) r)
  end.

Fixpoint take_digits (l : list ascii) : list ascii * list ascii :=
  match l with
  | c :: r =>
      if isdigit c
      then let (ds, rest) := take_digits r in (c :: ds, rest)
      else ([], l)
  | [] => ([], [])
  end.

Definition digits_value (ds : list ascii) : Z :=
  fold_left (fun acc c => 10 * acc + digit_value c) ds 0.

Definition is_nil {A : Type} (l : list A) : bool :=
  match l with [] => true | _ => false end.

(** A decimal literal as a pair [(m, e)] standing for [m * 10 ^ e]. *)
Definition decimal_literal (l : list ascii) : option (Z * Z) :=
  let (ip, r1) := take_digits l in
  let (fp, r2) :=
    match r1 with
    | "."%char :: r => take_digits r
    | _ => ([], r1)
    end in
  if is_nil ip && is_nil fp then None
  else
    let m := digits_value (ip ++ fp) in
    let shift := Z.of_nat (List.length fp) in
    match r2 with
    | [] => Some (m, - shift)
    | c :: r3 =>
        if Ascii.eqb (lower c) "e" then
          let (eneg, r4) := split_sign r3 in
          let (ed, r5) := take_digits r4 in
          if is_nil ed || negb (is_nil r5) then None
          else
            let x := digits_value ed in
            Some (m, (if eneg then - x else x) - shift)
        else None
    end.

(** [m * 10 ^ e], correctly rounded to binary64. *)
Definition decimal_to_SF (neg : bool) (m e : Z) : spec_float :=
  match m with
  | Zpos p =>
      if 0 <=? e
      then binary_normalize prec emax
             (if neg then - (m * 10 ^ e) else m * 10 ^ e) 0 neg
      else SFdiv prec emax (S754_finite neg p 0)
             (S754_finite false (Z.to_pos (10 ^ (- e))) 0)
  | _ => S754_zero neg
  end.

Definition float_of_str (s : string) : outcome float :=
  let (neg, body) :=
    split_sign (strip (to_ascii_text (list_ascii_of_string s))) in
  let word := string_of_list_ascii (map lower body) in
  if String.eqb word "inf" || String.eqb word "infinity"
  then Ret (SF2Prim (S754_infinity neg))
  else if String.eqb word "nan" then Ret nan
  else
    match drop_underscores false body with
    | None => Raise (ValueError "could not convert string to float")
    | Some plain =>
        match decimal_literal plain with
        | Some (m, e) => Ret (SF2Prim (decimal_to_SF neg m e))
        | None => Raise (ValueError "could not convert string to float")
        end
    end.

(** *** [int(float)]: truncation toward zero *)

Definition int_of_float (f : float) : outcome Z :=
  match Prim2SF f with
  | S754_nan => Raise (ValueError "cannot convert float NaN to integer")
  | S754_infinity _ =>
      Raise (OverflowError "cannot convert float infinity to integer")
  | S754_zero _ => Ret 0
  | S754_finite s m e =>
      let sm := cond_Zopp s (Zpos m) in
      Ret (if 0 <=? e then sm * 2 ^ e else Z.quot sm (2 ^ (- e)))
  end.

(** *** [int / int]: true division, correctly rounded *)

Definition truediv (a b : Z) : outcome float :=
  match a, b with
  | _, Z0 => Raise (ZeroDivisionError "division by zero")
  | Z0, _ => Ret (SF2Prim (S754_zero (b <? 0)))
  | _, _ =>
      match SFdiv prec emax
              (S754_finite (a <? 0) (Z.to_pos (Z.abs a)) 0)
              (S754_finite (b <? 0) (Z.to_pos (Z.abs b)) 0) with
      | S754_infinity _ =>
          Raise (OverflowError "integer division result too large for a float")
      | q => Ret (SF2Prim q)
      end
  end.

End Py.


(* ================================================================= *)
(** ** Data: JSON values, dicts, requests, responses *)

Inductive value : Type :=
| VStr (s : string)
| VInt (z : Z)
| VBool (b : bool).

(** A [dict] with string keys, in insertion order. *)
Definition dict : Type := list (string * value).

Fixpoint dict_set (d : dict) (k : string) (v : value) : dict :=
  match d with
  | [] => [(k, v)]
  | (k', v') :: r =>
      if String.eqb k' k then (k, v) :: r else (k', v') :: dict_set r k v
  end.

(** The entries of [kw] unpacked into [d], as in a dict display. *)
Definition dict_update (d kw : dict) : dict :=
  fold_left (fun acc kv => dict_set acc (fst kv) (snd kv)) kw d.

Fixpoint dict_get (d : dict) (k : string) : option value :=
  match d with
  | [] => None
  | (k', v) :: r => if String.eqb k' k then Some v else dict_get r k
  end.

(** [flask.request]: what the program reads of it, and the [_start]
    attribute the [before_request] hook adds. *)
Record request : Type := {
  path : string;
  method : string;
  args : list (string * string);
  _start : option float
}.

(** [request.args.get(key, default)]: the first value given for [key]. *)
Fixpoint args_get (a : list (string * string)) (key default : string)
  : string :=
  match a with
  | [] => default
  | (k, v) :: r => if String.eqb k key then v else args_get r key default
  end.

Inductive body : Type :=
| Json (d : dict)
| ErrorPage (code : Z)
| NoBody.

Record response : Type := {
  status_code : Z;
  data : body
}.

(** A JSON response: the serialised keyword arguments and the status code
    the view pairs them with. *)
Definition json_response (kwargs : dict) (status : Z) : response :=
  {| status_code := status; data := Json kwargs |}.

(** [json.dumps] writes an [int] in decimal, which fails beyond the digit
    limit; text and booleans always serialise. *)
Definition serializable (v : value) : bool :=
  match v with
  | VInt z => negb (Py.exceeds_str_digits z)
  | _ => true
  end.

(** What Flask answers by itself to a request none of the application's
    rules matches: [Flask(__name__)] registers [/static/<path:filename>],
    whose view sends a file of the static folder or fails, the router
    redirects some paths (doubled slashes), and everything else is
    [NotFound]. *)
Inductive builtin_answer : Type :=
| Served (r : response)
| Aborted (code : Z)
| Failed (name : string).

(* ================================================================= *)
(** ** [functools.lru_cache]: the cache object

    The decorator keeps a dict from key to link and a circular doubly-linked
    list of links ordered from the least recently used (next to the root) to
    the most recently used (just before the root).  The list is kept here as
    [queue], oldest first; the dict is the lookup in that list.  [full] is the
    decorator's own flag, set when an insertion brings the size to
    [maxsize]. *)

Module functools.

Record lru_cache : Type := {
  queue : list (Z * Z);
  full : bool;
  hits : nat;
  misses : nat
}.

Definition empty : lru_cache :=
  {| queue := []; full := false; hits := 0; misses := 0 |}.

Definition keys (c : lru_cache) : list Z := map fst (queue c).

Definition cache_len (c : lru_cache) : nat := List.length (queue c).

Fixpoint lookup (key : Z) (q : list (Z * Z)) : option Z :=
  match q with
  | [] => None
  | (k, r) :: q' => if k =? key then Some r else lookup key q'
  end.

Definition cache_get (key : Z) (c : lru_cache) : option Z :=
  lookup key (queue c).

Fixpoint unlink (key : Z) (q : list (Z * Z)) : list (Z * Z) :=
  match q with
  | [] => []
  | (k, r) :: q' => if k =? key then q' else (k, r) :: unlink key q'
  end.

(** A hit: the link is moved to the most recently used end. *)
Definition hit (key result : Z) (c : lru_cache) : lru_cache :=
  {| queue := unlink key (queue c) ++ [(key, result)];
     full := full c;
     hits := S (hits c);
     misses := misses c |}.

Definition miss (c : lru_cache) : lru_cache :=
  {| queue := queue c; full := full c; hits := hits c;
     misses := S (misses c) |}.

(** After the user function returned: the result is stored unless the key
    appeared meanwhile; a full cache reuses the oldest link's place, dropping
    the oldest key. *)
Definition store (maxsize : nat) (key result : Z) (c : lru_cache)
  : lru_cache :=
  match cache_get key c with
  | Some _ => c
  | None =>
      if full c then
        {| queue := tl (queue c) ++ [(key, result)];
           full := true;
           hits := hits c;
           misses := misses c |}
      else
        let q := queue c ++ [(key, result)] in
        {| queue := q;
           full := (maxsize <=? List.length q)%nat;
           hits := hits c;
           misses := misses c |}
  end.

End functools.

(* ================================================================= *)
(** ** The world outside the program, and the effect monad *)

(** What leaves the process, in the order it happens. *)
Inductive event : Type :=
| Sleep (seconds : float)
| SpanStart (name : string) (trace_id : Z)
| SpanEnd (name : string)
| CounterAdd (instrument : string) (amount : Z) (attributes : dict)
| HistogramRecord (instrument : string) (amount : Z) (attributes : dict)
| LogLine (payload : dict).

(** The telemetry calls of the completion hook; each may raise. *)
Inductive telemetry_call : Type :=
| CounterAddCall
| HistogramRecordCall
| CurrentSpanCall
| LogCall.

(** How the platform's sleep turns down a length it cannot wait for. *)
Inductive sleep_fault : Type :=
| SleepTooLarge
| SleepInvalid
| SleepOSError.

Definition sleep_exception (f : sleep_fault) : exn :=
  match f with
  | SleepTooLarge => OverflowError "sleep length is too large"
  | SleepInvalid => ValueError "sleep length must be non-negative"
  | SleepOSError => OtherException "OSError"
  end.

(** What the process does not control: its environment variables, the
    wall clock, the random generator, the trace-id generator, whether a
    telemetry call raises, whether the platform accepts a very long sleep,
    and what Flask's own rules answer (by the number of clock reads so far,
    the method and the path) where the application has no rule. *)
Record outside : Type := {
  environ : list (string * string);
  clock : nat -> float;
  random_source : nat -> float;
  trace_id_source : nat -> Z;
  telemetry_fault : telemetry_call -> option exn;
  long_sleep_fault : float -> option sleep_fault;
  builtin_rules : nat -> string -> string -> builtin_answer
}.

Record world : Type := {
  out : outside;
  clock_reads : nat;
  random_draws : nat;
  spans_started : nat;
  span_stack : list (string * Z);
  current_request : request;
  memo : functools.lru_cache;
  events : list event
}.

Definition M (A : Type) : Type := world -> outcome A * world.

Definition ret {A : Type} (a : A) : M A := fun w => (Ret a, w).

Definition raise {A : Type} (e : exn) : M A := fun w => (Raise e, w).

Definition bind {A B : Type} (m : M A) (k : A -> M B) : M B :=
  fun w =>
    match m w with
    | (Ret a, w') => k a w'
    | (Raise e, w') => (Raise e, w')
    end.

Notation "x <- m ;; k" := (bind m (fun x => k))
  (at level 61, m at next level, right associativity).
Notation "m ;; k" := (bind m (fun _ => k))
  (at level 61, right associativity).

Definition lift {A : Type} (o : outcome A) : M A := fun w => (o, w).

Definition gets {A : Type} (f : world -> A) : M A := fun w => (Ret (f w), w).

Definition modify (f : world -> world) : M unit := fun w => (Ret tt, f w).

(** [try: body / except Exception: handler]: only instances of [Exception]
    are caught; the effects [body] had before raising stay. *)
Definition try_except_Exception {A : Type} (body : M A) (handler : exn -> M A)
  : M A :=
  fun w =>
    match body w with
    | (Raise e, w') =>
        if is_Exception e then handler e w' else (Raise e, w')
    | r => r
    end.

Definition set_events (ev : list event) (w : world) : world :=
  {| out := out w; clock_reads := clock_reads w;
     random_draws := random_draws w; spans_started := spans_started w;
     span_stack := span_stack w; current_request := current_request w;
     memo := memo w; events := ev |}.

Definition set_memo (c : functools.lru_cache) (w : world) : world :=
  {| out := out w; clock_reads := clock_reads w;
     random_draws := random_draws w; spans_started := spans_started w;
     span_stack := span_stack w; current_request := current_request w;
     memo := c; events := events w |}.

Definition set_request (r : request) (w : world) : world :=
  {| out := out w; clock_reads := clock_reads w;
     random_draws := random_draws w; spans_started := spans_started w;
     span_stack := span_stack w; current_request := r;
     memo := memo w; events := events w |}.

Definition set_span_stack (n : nat) (s : list (string * Z)) (w : world)
  : world :=
  {| out := out w; clock_reads := clock_reads w;
     random_draws := random_draws w; spans_started := n;
     span_stack := s; current_request := current_request w;
     memo := memo w; events := events w |}.

Definition tick_clock (w : world) : world :=
  {| out := out w; clock_reads := S (clock_reads w);
     random_draws := random_draws w; spans_started := spans_started w;
     span_stack := span_stack w; current_request := current_request w;
     memo := memo w; events := events w |}.

Definition tick_random (w : world) : world :=
  {| out := out w; clock_reads := clock_reads w;
     random_draws := S (random_draws w); spans_started := spans_started w;
     span_stack := span_stack w; current_request := current_request w;
     memo := memo w; events := events w |}.

Definition emit (e : event) : M unit :=
  modify (fun w => set_events (events w ++ [e]) w).

(** [time.time()] *)
Definition time_time : M float :=
  fun w => (Ret (clock (out w) (clock_reads w)), tick_clock w).

(** [random.random()] *)
Definition random_random : M float :=
  fun w => (Ret (random_source (out w) (random_draws w)), tick_random w).

(** [time.sleep(seconds)].  The length is converted to a signed 64-bit
    count of nanoseconds: a NaN is a [ValueError], a count beyond 2 ^ 63 an
    [OverflowError], a negative length a [ValueError].  Lengths up to
    [long_sleep] (4294967 seconds, just under 2 ^ 32 milliseconds or 50
    days) are waited out on every platform; a longer one is waited out or
    turned down, as the platform decides: the system call has its own
    limits, which depend on the system and on its clock. *)
Definition long_sleep : float := 4294967%float.

Definition time_sleep (seconds : float) : M unit :=
  if is_nan seconds
  then raise (ValueError "Invalid value NaN (not a number)")
  else
    let ns := (seconds * 1000000000)%float in
    if (9223372036854775808 <? ns)%float || (ns <? -9223372036854775808)%float
    then raise (OverflowError "timestamp too large to convert to C _PyTime_t")
    else if (seconds <? 0)%float
    then raise (ValueError "sleep length must be non-negative")
    else if (seconds <=? long_sleep)%float
    then emit (Sleep seconds)
    else
      o <- gets out ;;
      match long_sleep_fault o seconds with
      | Some f => raise (sleep_exception f)
      | None => emit (Sleep seconds)
      end.

(** A telemetry call: it raises when the SDK does, and acts otherwise. *)
Definition telemetry {A : Type} (c : telemetry_call) (action : M A) : M A :=
  fun w =>
    match telemetry_fault (out w) c with
    | Some e => (Raise e, w)
    | None => action w
    end.

(** [with tracer.start_as_current_span(name): body].  A span started with
    no active span opens a new trace; otherwise it joins the active one.  The
    span ends when the block is left, by return or by exception. *)
Definition open_span (name : string) (w : world) : world :=
  let tid :=
    match span_stack w with
    | (_, t) :: _ => t
    | [] => trace_id_source (out w) (spans_started w)
    end in
  set_events (events w ++ [SpanStart name tid])
    (set_span_stack (S (spans_started w)) ((name, tid) :: span_stack w) w).

Definition close_span (name : string) (w : world) : world :=
  set_events (events w ++ [SpanEnd name])
    (set_span_stack (spans_started w) (tl (span_stack w)) w).

Definition start_as_current_span {A : Type} (name : string) (block : M A)
  : M A :=
  fun w =>
    let (r, w') := block (open_span name w) in
    (r, close_span name w').

(** [trace.get_current_span()] and the [trace_id] of its context, [0] when
    no span is active. *)
Definition current_trace_id : M Z :=
  telemetry CurrentSpanCall
    (gets (fun w => match span_stack w with (_, t) :: _ => t | [] => 0 end)).

(** The decorated function: [wrapper] of [lru_cache(maxsize)] around
    [user_function], over the cache kept in [memo]. *)
Definition lru_cache (maxsize : nat) (user_function : Z -> M Z) (key : Z)
  : M Z :=
  c <- gets memo ;;
  match functools.cache_get key c with
  | Some result =>
      modify (set_memo (functools.hit key result c)) ;;
      ret result
  | None =>
      modify (set_memo (functools.miss c)) ;;
      result <- user_function key ;;
      c' <- gets memo ;;
      modify (set_memo (functools.store maxsize key result c')) ;;
      ret result
  end.

(** [jsonify(...), status] as a view returns it.  [jsonify] serialises
    its arguments at once, so an [int] beyond the digit limit raises inside
    the view. *)
Definition jsonify (kwargs : dict) (status : Z) : M response :=
  if forallb (fun kv => serializable (snd kv)) kwargs
  then ret (json_response kwargs status)
  else raise Py.digit_limit_error.

(* ================================================================= *)
(** ** [app.py] *)

Definition getenv (o : outside) (name default : string) : string :=
  args_get (environ o) name default.

Definition SERVICE_NAME (o : outside) : string :=
  getenv o "OTEL_SERVICE_NAME" "observability-lab".

Definition ENV (o : outside) : string := getenv o "DEPLOY_ENV" "dev".

(** [req_counter.add(amount, attributes)] *)
Definition req_counter_add (amount : Z) (attributes : dict) : M unit :=
  telemetry CounterAddCall (emit (CounterAdd "requests_total" amount attributes)).

(** [latency_hist.record(amount, attributes)] *)
Definition latency_hist_record (amount : Z) (attributes : dict) : M unit :=
  telemetry HistogramRecordCall
    (emit (HistogramRecord "request_latency_ms" amount attributes)).

(** [logger.info(json.dumps(payload))]: the line is kept as the payload it
    renders. *)
Definition logger_info (payload : dict) : M unit :=
  telemetry LogCall (emit (LogLine payload)).

Definition log_json (event : string) (kwargs : dict) : M unit :=
  o <- gets out ;;
  let payload :=
    dict_update
      [("event", VStr event); ("service", VStr (SERVICE_NAME o));
       ("env", VStr (ENV o))]
      kwargs in
  logger_info payload.

(** [@app.before_request] *)
Definition _start_timer : M unit :=
  t <- time_time ;;
  modify (fun w =>
    let r := current_request w in
    set_request {| path := path r; method := method r; args := args r;
                   _start := Some t |} w).

(** [@app.after_request].  The subtraction reads the clock first; the
    default of [getattr] is evaluated (a second clock read) whether or not
    [_start] is there. *)
Definition _after (resp : response) : M response :=
  try_except_Exception
    (now <- time_time ;;
     default <- time_time ;;
     rq <- gets current_request ;;
     let start := match _start rq with Some t => t | None => default end in
     dur_ms <- lift (Py.int_of_float ((now - start) * 1000)%float) ;;
     req_counter_add 1
       [("path", VStr (path rq)); ("method", VStr (method rq));
        ("status", VStr (Py.str_of_int (status_code resp)))] ;;
     latency_hist_record dur_ms
       [("path", VStr (path rq)); ("method", VStr (method rq))] ;;
     trace_id <- current_trace_id ;;
     log_json "request"
       [("path", VStr (path rq)); ("method", VStr (method rq));
        ("status", VInt (status_code resp)); ("latency_ms", VInt dur_ms);
        ("trace_id", VStr (Py.hex trace_id))])
    (fun _ => ret tt) ;;
  ret resp.

(** [GET /health] *)
Definition health : M response :=
  o <- gets out ;;
  jsonify [("ok", VBool true); ("service", VStr (SERVICE_NAME o));
           ("env", VStr (ENV o))] 200.

(** [GET /hello] *)
Definition hello : M response :=
  rq <- gets current_request ;;
  delay_ms <- lift (Py.int_of_str (args_get (args rq) "delay_ms" "0")) ;;
  (if 0 <? delay_ms
   then (seconds <- lift (Py.truediv delay_ms 1000) ;; time_sleep seconds)
   else ret tt) ;;
  jsonify [("message", VStr "hello, datadog")] 200.

Definition expensive_compute (x : Z) : M Z :=
  time_sleep 0.8%float ;;
  ret (x * x).

(** [@lru_cache(maxsize=256)] *)
Definition expensive_compute_cached : Z -> M Z :=
  lru_cache 256 expensive_compute.

Definition expensive_compute_uncached (x : Z) : M Z :=
  time_sleep 0.8%float ;;
  ret (x * x).

(** [GET /slow] *)
Definition slow : M response :=
  rq <- gets current_request ;;
  let cache_on := String.eqb (args_get (args rq) "cache" "0") "1" in
  x <- lift (Py.int_of_str (args_get (args rq) "x" "7")) ;;
  start_as_current_span "slow_work"
    (res <- (if cache_on
             then expensive_compute_cached x
             else expensive_compute_uncached x) ;;
     jsonify [("result", VInt res); ("cache", VBool cache_on)] 200).

(** [GET /error] *)
Definition sometimes_errors : M response :=
  rq <- gets current_request ;;
  rate <- lift (Py.float_of_str (args_get (args rq) "rate" "0.2")) ;;
  u <- random_random ;;
  if (u <? rate)%float
  then jsonify [("error", VStr "intentional failure")] 500
  else jsonify [("ok", VBool true)] 200.

(* ================================================================= *)
(** ** Flask: how a request reaches the views and the hooks

    The four views are registered with [app.get], so each rule answers [GET]
    and, as Flask adds them, [HEAD] (by the view) and [OPTIONS] (by Flask
    itself); another method is [MethodNotAllowed].  A path that is none of
    the four is left to Flask's own rules.  The application registers no
    error handler and runs without debug, so an [HTTPException] becomes its
    own response and any other [Exception] a 500 response; the
    [after_request] hook sees every response. *)

Module Flask.

(** The rules of the application. *)
Definition url_map : list (string * M response) :=
  [("/health", health); ("/hello", hello); ("/slow", slow);
   ("/error", sometimes_errors)].

Fixpoint match_rule (rules : list (string * M response)) (p : string)
  : option (M response) :=
  match rules with
  | [] => None
  | (rule, view) :: r => if String.eqb rule p then Some view else match_rule r p
  end.

Definition error_response (code : Z) : response :=
  {| status_code := code; data := ErrorPage code |}.

(** What a view of Flask's own returned or raised. *)
Definition builtin_outcome (a : builtin_answer) : outcome response :=
  match a with
  | Served r => Ret r
  | Aborted code => Raise (HTTPException code)
  | Failed name => Raise (OtherException name)
  end.

Definition dispatch_request : M response :=
  rq <- gets current_request ;;
  match match_rule url_map (path rq) with
  | None =>
      o <- gets out ;;
      n <- gets clock_reads ;;
      lift (builtin_outcome (builtin_rules o n (method rq) (path rq)))
  | Some view =>
      if String.eqb (method rq) "GET" || String.eqb (method rq) "HEAD"
      then view
      else if String.eqb (method rq) "OPTIONS"
           then ret {| status_code := 200; data := NoBody |}
           else raise (HTTPException 405)
  end.

(** The registered [before_request] functions; [_start_timer] returns
    [None], so dispatch goes on to the view. *)
Definition preprocess_request : M unit := _start_timer.

(** The registered [after_request] functions. *)
Definition process_response (resp : response) : M response := _after resp.

Definition handle_user_exception (e : exn) : M response :=
  match e with
  | HTTPException code => ret (error_response code)
  | _ => raise e
  end.

Definition finalize_request (rv : response) (from_error_handler : bool)
  : M response :=
  try_except_Exception (process_response rv)
    (fun e => if from_error_handler then ret rv else raise e).

Definition full_dispatch_request : M response :=
  rv <- try_except_Exception (preprocess_request ;; dispatch_request)
          handle_user_exception ;;
  finalize_request rv false.

Definition handle_exception (e : exn) : M response :=
  finalize_request (error_response 500) true.

Definition wsgi_app : M response :=
  try_except_Exception full_dispatch_request handle_exception.

(** A new request context: the request object carries no [_start] yet. *)
Definition push (rq : request) (w : world) : world :=
  set_request {| path := path rq; method := method rq; args := args rq;
                 _start := None |} w.

(** One request served: the request context is pushed, the application
    runs. *)
Definition serve (rq : request) (w : world) : outcome response * world :=
  wsgi_app (push rq w).

End Flask.

(** The process as it starts: nothing cached, nothing emitted. *)
Definition boot (o : outside) : world :=
  {| out := o; clock_reads := 0; random_draws := 0; spans_started := 0;
     span_stack := [];
     current_request :=
       {| path := ""; method := ""; args := []; _start := None |};
     memo := functools.empty; events := [] |}.

(** Requests served one after the other. *)
Definition serve_all (rqs : list request) (w : world) : world :=
  fold_left (fun w rq => snd (Flask.serve rq w)) rqs w.

(** The cached function called on each key in turn. *)
Definition call_all (ks : list Z) (w : world) : world :=
  fold_left (fun w x => snd (expensive_compute_cached x w)) ks w.

(* ================================================================= *)
(** ** Invariants of the cache object *)

(** The representation invariant: the linked list holds each key once, at
    most [maxsize] links, and the [full] flag tells whether it is at
    capacity. *)
Definition lru_wf (maxsize : nat) (c : functools.lru_cache) : Prop :=
  NoDup (functools.keys c)
  /\ (functools.cache_len c <= maxsize)%nat
  /\ functools.full c = (maxsize <=? functools.cache_len c)%nat.

(** Every stored result is the square of its key. *)
Definition squares (c : functools.lru_cache) : Prop :=
  forall k r, In (k, r) (functools.queue c) -> r = k * k.

(** The last [n] elements of a list. *)
Definition lastn {A : Type} (n : nat) (l : list A) : list A :=
  skipn (List.length l - n) l.

Section CacheFacts.

Import functools.

Lemma lookup_none (key : Z) (q : list (Z * Z)) :
  lookup key q = None <-> ~ In key (map fst q).
Proof.
  induction q as [|[k r] q IH]; simpl.
  - tauto.
  - destruct (Z.eqb_spec k key) as [->|Hne].
    + split; [discriminate | intros H; exfalso; apply H; now left].
    + rewrite IH. split.
      * intros H [E|E]; [congruence | tauto].
      * intros H E; apply H; now right.
Qed.

Lemma lookup_some (key r : Z) (q : list (Z * Z)) :
  lookup key q = Some r -> In (key, r) q.
Proof.
  induction q as [|[k r'] q IH]; simpl; [discriminate|].
  destruct (Z.eqb_spec k key) as [->|Hne].
  - intros [= ->]; now left.
  - intros H; right; auto.
Qed.

Lemma lookup_last (key r : Z) (q : list (Z * Z)) :
  ~ In key (map fst q) -> lookup key (q ++ [(key, r)]) = Some r.
Proof.
  induction q as [|[k r'] q IH]; simpl; intros H.
  - now rewrite Z.eqb_refl.
  - destruct (Z.eqb_spec k key) as [->|Hne]; [tauto|].
    apply IH; tauto.
Qed.

Lemma unlink_subset (key : Z) (q : list (Z * Z)) (e : Z * Z) :
  In e (unlink key q) -> In e q.
Proof.
  induction q as [|[k r'] q IH]; simpl; [tauto|].
  destruct (k =? key); simpl; intuition.
Qed.

Lemma unlink_keys (key : Z) (q : list (Z * Z)) (k : Z) :
  In k (map fst (unlink key q)) -> In k (map fst q).
Proof.
  rewrite !in_map_iff. intros [e [E H]].
  exists e; split; [assumption | eapply unlink_subset; eassumption].
Qed.

Lemma unlink_nodup (key : Z) (q : list (Z * Z)) :
  NoDup (map fst q) ->
  NoDup (map fst (unlink key q)) /\ ~ In key (map fst (unlink key q)).
Proof.
  induction q as [|[k r'] q IH]; simpl; intros H.
  - split; [constructor | tauto].
  - inversion H as [|? ? Hk Hq]; subst.
    destruct (Z.eqb_spec k key) as [->|Hne].
    + split; assumption.
    + destruct (IH Hq) as [N1 N2]. simpl. split.
      * constructor; [|assumption].
        intros Hin; apply Hk; eapply unlink_keys; eassumption.
      * intros [E|E]; [congruence | tauto].
Qed.

Lemma unlink_length (key r : Z) (q : list (Z * Z)) :
  lookup key q = Some r -> S (List.length (unlink key q)) = List.length q.
Proof.
  induction q as [|[k r'] q IH]; simpl; [discriminate|].
  destruct (k =? key); simpl; [reflexivity|].
  intros H; now rewrite IH.
Qed.

(** When the key is already the most recently used one, a hit leaves the
    list as it is. *)
Lemma unlink_last (key r : Z) (q : list (Z * Z)) :
  ~ In key (map fst q) -> unlink key (q ++ [(key, r)]) = q.
Proof.
  induction q as [|[k r'] q IH]; simpl; intros H.
  - now rewrite Z.eqb_refl.
  - destruct (Z.eqb_spec k key) as [->|Hne]; [tauto|].
    f_equal; apply IH; tauto.
Qed.

Lemma nodup_snoc (A : Type) (l : list A) (x : A) :
  NoDup l -> ~ In x l -> NoDup (l ++ [x]).
Proof.
  intros Hl Hx. apply NoDup_app; [assumption | repeat constructor; simpl; tauto |].
  intros a Ha [<-|[]]; tauto.
Qed.

Lemma keys_snoc (q : list (Z * Z)) (key r : Z) :
  map fst (q ++ [(key, r)]) = map fst q ++ [key].
Proof. now rewrite map_app. Qed.

Lemma hit_wf (n : nat) (key r : Z) (c : lru_cache) :
  lru_wf n c -> cache_get key c = Some r -> lru_wf n (hit key r c).
Proof.
  unfold lru_wf, keys, cache_len, cache_get, hit; simpl.
  intros (Hnd & Hlen & Hfull) Hget.
  destruct (unlink_nodup key _ Hnd) as [N1 N2].
  pose proof (unlink_length _ _ _ Hget) as HL.
  rewrite keys_snoc, length_app; simpl.
  split; [now apply nodup_snoc|].
  replace (List.length (unlink key (queue c)) + 1)%nat
    with (List.length (queue c)) by lia.
  split; assumption.
Qed.

Lemma miss_wf (n : nat) (c : lru_cache) : lru_wf n c -> lru_wf n (miss c).
Proof. unfold lru_wf, keys, cache_len, miss; simpl; tauto. Qed.

Lemma store_wf (n : nat) (key r : Z) (c : lru_cache) :
  (0 < n)%nat -> lru_wf n c -> lru_wf n (store n key r c).
Proof.
  intros Hn Hwf. unfold store.
  destruct (cache_get key c) eqn:Hget; [assumption|].
  apply lookup_none in Hget.
  destruct Hwf as (Hnd & Hlen & Hfull).
  unfold lru_wf, keys, cache_len in *.
  destruct (full c) eqn:Hf; simpl.
  - symmetry in Hfull. apply Nat.leb_le in Hfull.
    destruct (queue c) as [|[k0 r0] q] eqn:Hq; simpl in *; [lia|].
    rewrite keys_snoc, length_app; simpl.
    inversion Hnd; subst.
    split; [apply nodup_snoc; tauto|].
    split; [lia|].
    symmetry; apply Nat.leb_le; lia.
  - symmetry in Hfull. apply Nat.leb_gt in Hfull.
    rewrite keys_snoc, length_app; simpl.
    split; [now apply nodup_snoc|].
    split; [lia | reflexivity].
Qed.

Lemma hit_squares (key r : Z) (c : lru_cache) :
  squares c -> cache_get key c = Some r -> squares (hit key r c).
Proof.
  unfold squares, hit, cache_get; simpl. intros Hsq Hget k v Hin.
  apply in_app_iff in Hin. destruct Hin as [Hin|[[= <- <-]|[]]].
  - apply Hsq. eapply unlink_subset; eassumption.
  - apply Hsq. now apply lookup_some.
Qed.

Lemma store_squares (n : nat) (key : Z) (c : lru_cache) :
  squares c -> squares (store n key (key * key) c).
Proof.
  unfold squares, store. intros Hsq.
  destruct (cache_get key c); [assumption|].
  destruct (full c); simpl; intros k v Hin;
    apply in_app_iff in Hin; destruct Hin as [Hin|[[= <- <-]|[]]];
    try reflexivity; apply Hsq; [|assumption].
  destruct (queue c); simpl in *; tauto.
Qed.

Lemma lastn_short (A : Type) (n : nat) (l : list A) :
  (List.length l <= n)%nat -> lastn n l = l.
Proof.
  intros H. unfold lastn.
  replace (List.length l - n)%nat with 0%nat by lia. reflexivity.
Qed.

Lemma lastn_lastn_app (A : Type) (n : nat) (a b : list A) :
  lastn n (lastn n a ++ b) = lastn n (a ++ b).
Proof.
  destruct (Nat.le_gt_cases (List.length a) n) as [Hle|Hgt].
  - now rewrite (lastn_short _ n a).
  - unfold lastn. rewrite !skipn_app, !length_app, !length_skipn, skipn_skipn.
    f_equal; f_equal; lia.
Qed.

(** What a miss does to the list of keys: the new key goes to the recent
    end, and the list keeps its last [n] keys. *)
Lemma store_keys (n : nat) (key r : Z) (c : lru_cache) :
  (0 < n)%nat -> lru_wf n c -> cache_get key c = None ->
  keys (store n key r c) = lastn n (keys c ++ [key]).
Proof.
  intros Hn (Hnd & Hlen & Hfull) Hget. unfold store. rewrite Hget.
  unfold keys, cache_len, lastn in *.
  destruct (full c) eqn:Hf; simpl; symmetry in Hfull;
    rewrite length_app, length_map; simpl.
  - apply Nat.leb_le in Hfull.
    replace (List.length (queue c) + 1 - n)%nat with 1%nat by lia.
    destruct (queue c) as [|[k0 r0] q]; simpl in *; [lia|].
    now rewrite keys_snoc.
  - apply Nat.leb_gt in Hfull.
    replace (List.length (queue c) + 1 - n)%nat with 0%nat by lia.
    now rewrite keys_snoc.
Qed.

End CacheFacts.

(* ================================================================= *)
(** ** The cached function, call by call *)

Lemma cached_hit (x r : Z) (w : world) :
  functools.cache_get x (memo w) = Some r ->
  expensive_compute_cached x w
  = (Ret r, set_memo (functools.hit x r (memo w)) w).
Proof.
  intros H. unfold expensive_compute_cached, lru_cache, bind, gets; simpl.
  rewrite H. reflexivity.
Qed.

Lemma cached_miss (x : Z) (w : world) :
  functools.cache_get x (memo w) = None ->
  expensive_compute_cached x w
  = (Ret (x * x),
     set_memo (functools.store 256 x (x * x) (functools.miss (memo w)))
       (set_events (events w ++ [Sleep 0.8%float]) w)).
Proof.
  intros H. unfold expensive_compute_cached, lru_cache, bind, gets; simpl.
  rewrite H. reflexivity.
Qed.

(* ================================================================= *)
(** ** Reasoning about computations *)

(** [m] keeps the property [I] of the world, whatever it returns. *)
Definition preserves {A : Type} (I : world -> Prop) (m : M A) : Prop :=
  forall w, I w -> I (snd (m w)).

(** [m] raises nothing but instances of [Exception]. *)
Definition tame {A : Type} (m : M A) : Prop :=
  forall w e, fst (m w) = Raise e -> is_Exception e = true.

Definition tame_outcome {A : Type} (o : outcome A) : Prop :=
  forall e, o = Raise e -> is_Exception e = true.

(** The events a view may cause: it sleeps and opens spans, and feeds no
    metric and writes no log line. *)
Definition quiet (e : event) : bool :=
  match e with
  | Sleep _ | SpanStart _ _ | SpanEnd _ => true
  | _ => false
  end.

(** A property of the world that the steps of a view keep: a view draws
    random numbers, sleeps, opens spans and uses the cache; it does not read
    the clock or touch the request. *)
Record steady (I : world -> Prop) : Prop := {
  steady_random : forall w, I w -> I (tick_random w);
  steady_event : forall w e, quiet e = true -> I w ->
                 I (set_events (events w ++ [e]) w);
  steady_spans : forall w n s, I w -> I (set_span_stack n s w);
  steady_hit : forall w x r,
      functools.cache_get x (memo w) = Some r -> I w ->
      I (set_memo (functools.hit x r (memo w)) w);
  steady_store : forall w x,
      functools.cache_get x (memo w) = None -> I w ->
      I (set_memo (functools.store 256 x (x * x) (functools.miss (memo w))) w)
}.

Create HintDb pres discriminated.

Section Preserves.

Variable I : world -> Prop.
Hypothesis I_steady : steady I.

Lemma preserves_ret (A : Type) (a : A) : preserves I (ret a).
Proof. intros w H; exact H. Qed.

Lemma preserves_raise (A : Type) (e : exn) : preserves I (@raise A e).
Proof. intros w H; exact H. Qed.

Lemma preserves_lift (A : Type) (o : outcome A) : preserves I (lift o).
Proof. intros w H; exact H. Qed.

Lemma preserves_gets (A : Type) (f : world -> A) : preserves I (gets f).
Proof. intros w H; exact H. Qed.

Lemma preserves_bind (A B : Type) (m : M A) (k : A -> M B) :
  preserves I m -> (forall a, preserves I (k a)) -> preserves I (bind m k).
Proof.
  intros Hm Hk w H. unfold bind. specialize (Hm w H).
  destruct (m w) as [[a|e] w']; simpl in *; [now apply Hk | assumption].
Qed.

Lemma preserves_if (A : Type) (b : bool) (m1 m2 : M A) :
  preserves I m1 -> preserves I m2 -> preserves I (if b then m1 else m2).
Proof. destruct b; tauto. Qed.

Lemma preserves_try (A : Type) (body : M A) (handler : exn -> M A) :
  preserves I body -> (forall e, preserves I (handler e)) ->
  preserves I (try_except_Exception body handler).
Proof.
  intros Hb Hh w H. unfold try_except_Exception. specialize (Hb w H).
  destruct (body w) as [[a|e] w']; simpl in *; [assumption|].
  destruct (is_Exception e); [now apply Hh | assumption].
Qed.

Lemma preserves_random_random : preserves I random_random.
Proof. intros w H. now apply (steady_random I I_steady). Qed.

Lemma preserves_time_sleep (s : float) : preserves I (time_sleep s).
Proof.
  intros w H. unfold time_sleep.
  repeat match goal with
         | |- context [if ?b then _ else _] => destruct b
         end; try assumption; try (now apply (steady_event I I_steady)).
  unfold bind, gets; simpl.
  destruct (long_sleep_fault (out w) s); [assumption|].
  now apply (steady_event I I_steady).
Qed.

Lemma preserves_jsonify (kwargs : dict) (status : Z) :
  preserves I (jsonify kwargs status).
Proof. intros w H. unfold jsonify. destruct (forallb _ _); exact H. Qed.

Lemma preserves_open_span (name : string) (w : world) :
  I w -> I (open_span name w).
Proof.
  intros H. unfold open_span.
  apply (steady_event I I_steady (set_span_stack _ _ w));
    [reflexivity | now apply (steady_spans I I_steady)].
Qed.

Lemma preserves_close_span (name : string) (w : world) :
  I w -> I (close_span name w).
Proof.
  intros H. unfold close_span.
  apply (steady_event I I_steady (set_span_stack _ _ w));
    [reflexivity | now apply (steady_spans I I_steady)].
Qed.

Lemma preserves_span (A : Type) (name : string) (block : M A) :
  preserves I block -> preserves I (start_as_current_span name block).
Proof.
  intros Hb w H. unfold start_as_current_span.
  specialize (Hb _ (preserves_open_span name w H)).
  destruct (block (open_span name w)) as [r w']. simpl in *.
  now apply preserves_close_span.
Qed.

Lemma preserves_uncached (x : Z) : preserves I (expensive_compute_uncached x).
Proof. intros w H. now apply (steady_event I I_steady w (Sleep _)). Qed.

Lemma preserves_cached (x : Z) : preserves I (expensive_compute_cached x).
Proof.
  intros w H.
  destruct (functools.cache_get x (memo w)) as [r|] eqn:Hget.
  - rewrite (cached_hit _ _ _ Hget). now apply (steady_hit I I_steady).
  - rewrite (cached_miss _ _ Hget).
    apply (steady_event I I_steady
             (set_memo (functools.store 256 x (x * x)
                          (functools.miss (memo w))) w) (Sleep _));
      [reflexivity | now apply (steady_store I I_steady)].
Qed.

End Preserves.

#[local] Hint Resolve preserves_ret preserves_raise preserves_lift
  preserves_gets preserves_bind preserves_if preserves_try
  preserves_random_random preserves_time_sleep preserves_jsonify
  preserves_span preserves_uncached
  preserves_cached : pres.

Section ViewsPreserve.

Variable I : world -> Prop.
Hypothesis I_steady : steady I.

Lemma preserves_health : preserves I health.
Proof. unfold health; auto with pres. Qed.

Lemma preserves_hello : preserves I hello.
Proof. unfold hello; auto 8 with pres. Qed.

Lemma preserves_slow : preserves I slow.
Proof. unfold slow; cbv zeta; auto 8 with pres. Qed.

Lemma preserves_sometimes_errors : preserves I sometimes_errors.
Proof. unfold sometimes_errors; auto 8 with pres. Qed.

End ViewsPreserve.

(** Preservation, for the dispatch of a request up to the completion
    hook. *)
Section DispatchPreserves.

Variable I : world -> Prop.
Hypothesis I_steady : steady I.

Lemma preserves_match_rule (rules : list (string * M response)) (p : string) :
  (forall r v, In (r, v) rules -> preserves I v) ->
  forall v, Flask.match_rule rules p = Some v -> preserves I v.
Proof.
  induction rules as [|[r v0] rules IH]; simpl; intros Hall v; [discriminate|].
  destruct (String.eqb r p).
  - intros [= <-]. apply (Hall r); now left.
  - apply IH. intros r' v' Hin. apply (Hall r'); now right.
Qed.

Lemma preserves_views (r : string) (v : M response) :
  In (r, v) Flask.url_map -> preserves I v.
Proof.
  unfold Flask.url_map; simpl.
  intros [[= <- <-]|[[= <- <-]|[[= <- <-]|[[= <- <-]|[]]]]].
  - now apply preserves_health.
  - now apply preserves_hello.
  - now apply preserves_slow.
  - now apply preserves_sometimes_errors.
Qed.

Lemma preserves_dispatch_request : preserves I Flask.dispatch_request.
Proof.
  unfold Flask.dispatch_request.
  apply preserves_bind; [apply preserves_gets|]. intros rq.
  destruct (Flask.match_rule Flask.url_map (path rq)) as [view|] eqn:Hm.
  - pose proof (preserves_match_rule _ _ preserves_views _ Hm).
    auto with pres.
  - intros w H. exact H.
Qed.

Lemma preserves_handle_user_exception (e : exn) :
  preserves I (Flask.handle_user_exception e).
Proof. destruct e; simpl; auto with pres. Qed.

End DispatchPreserves.

#[local] Hint Resolve preserves_dispatch_request
  preserves_handle_user_exception : pres.

(* ----------------------------------------------------------------- *)
(** *** Exceptions a computation can raise *)

Section Tame.

Lemma tame_ret (A : Type) (a : A) : tame (ret a).
Proof. intros w e; discriminate. Qed.

Lemma tame_raise (A : Type) (e : exn) :
  is_Exception e = true -> tame (@raise A e).
Proof. intros H w e' [= <-]; exact H. Qed.

Lemma tame_lift (A : Type) (o : outcome A) : tame_outcome o -> tame (lift o).
Proof. intros H w e; apply H. Qed.

Lemma tame_gets (A : Type) (f : world -> A) : tame (gets f).
Proof. intros w e; discriminate. Qed.

Lemma tame_modify (f : world -> world) : tame (modify f).
Proof. intros w e; discriminate. Qed.

Lemma tame_bind (A B : Type) (m : M A) (k : A -> M B) :
  tame m -> (forall a, tame (k a)) -> tame (bind m k).
Proof.
  intros Hm Hk w e. unfold bind. specialize (Hm w).
  destruct (m w) as [[a|e'] w']; simpl in *; [apply Hk|].
  intros [= <-]. now apply Hm.
Qed.

Lemma tame_if (A : Type) (b : bool) (m1 m2 : M A) :
  tame m1 -> tame m2 -> tame (if b then m1 else m2).
Proof. destruct b; tauto. Qed.

Lemma tame_try (A : Type) (body : M A) (handler : exn -> M A) :
  tame body -> (forall e, tame (handler e)) ->
  tame (try_except_Exception body handler).
Proof.
  intros Hb Hh w e. unfold try_except_Exception. specialize (Hb w).
  destruct (body w) as [[a|e'] w']; simpl in *; [discriminate|].
  rewrite (Hb e' eq_refl). apply Hh.
Qed.

Lemma tame_time_time : tame time_time.
Proof. intros w e; discriminate. Qed.

Lemma tame_random_random : tame random_random.
Proof. intros w e; discriminate. Qed.

Lemma tame_time_sleep (s : float) : tame (time_sleep s).
Proof.
  intros w e. unfold time_sleep.
  repeat match goal with
         | |- context [if ?b then _ else _] => destruct b
         end; try discriminate; try (intros [= <-]; reflexivity).
  unfold bind, gets; simpl.
  destruct (long_sleep_fault (out w) s) as [f|]; [|discriminate].
  intros [= <-]. now destruct f.
Qed.

Lemma tame_jsonify (kwargs : dict) (status : Z) : tame (jsonify kwargs status).
Proof.
  intros w e. unfold jsonify.
  destruct (forallb _ _); [discriminate | intros [= <-]; reflexivity].
Qed.

Lemma tame_span (A : Type) (name : string) (block : M A) :
  tame block -> tame (start_as_current_span name block).
Proof.
  intros Hb w e. unfold start_as_current_span.
  specialize (Hb (open_span name w)).
  destruct (block (open_span name w)) as [r w']. simpl in *. apply Hb.
Qed.

Lemma tame_start_timer : tame _start_timer.
Proof. intros w e; discriminate. Qed.

Lemma tame_uncached (x : Z) : tame (expensive_compute_uncached x).
Proof. intros w e; discriminate. Qed.

Lemma tame_cached (x : Z) : tame (expensive_compute_cached x).
Proof.
  intros w e.
  destruct (functools.cache_get x (memo w)) as [r|] eqn:Hget.
  - rewrite (cached_hit _ _ _ Hget); discriminate.
  - rewrite (cached_miss _ _ Hget); discriminate.
Qed.

Lemma tame_int_of_str (s : string) : tame_outcome (Py.int_of_str s).
Proof.
  intros e. unfold Py.int_of_str.
  destruct (Py.split_sign _) as [neg txt].
  destruct (Py.take_numeral txt) as [numeral rest].
  destruct (Py.int_digits 0 false numeral); [|intros [= <-]; reflexivity].
  destruct (_ <? _)%nat; [intros [= <-]; reflexivity|].
  destruct rest; [discriminate | intros [= <-]; reflexivity].
Qed.

Lemma tame_float_of_str (s : string) : tame_outcome (Py.float_of_str s).
Proof.
  intros e. unfold Py.float_of_str.
  destruct (Py.split_sign _) as [neg txt].
  repeat match goal with
         | |- context [if ?b then _ else _] => destruct b
         | |- context [match ?x with _ => _ end] => destruct x
         end; try discriminate; intros [= <-]; reflexivity.
Qed.

Lemma tame_truediv (a b : Z) : tame_outcome (Py.truediv a b).
Proof.
  intros e. unfold Py.truediv.
  destruct a, b; try discriminate; try (intros [= <-]; reflexivity);
    destruct (SFdiv _ _ _ _); try discriminate; intros [= <-]; reflexivity.
Qed.

End Tame.

#[local] Hint Resolve tame_ret tame_raise tame_lift tame_gets tame_modify
  tame_bind tame_if tame_try tame_time_time tame_random_random
  tame_time_sleep tame_jsonify tame_span tame_start_timer tame_uncached
  tame_cached
  tame_int_of_str tame_float_of_str tame_truediv : pres.

Lemma tame_health : tame health.
Proof. unfold health; auto with pres. Qed.

Lemma tame_hello : tame hello.
Proof. unfold hello; auto 8 with pres. Qed.

Lemma tame_slow : tame slow.
Proof. unfold slow; cbv zeta; auto 8 with pres. Qed.

Lemma tame_sometimes_errors : tame sometimes_errors.
Proof. unfold sometimes_errors; auto 8 with pres. Qed.

Lemma tame_match_rule (rules : list (string * M response)) (p : string) :
  (forall r v, In (r, v) rules -> tame v) ->
  forall v, Flask.match_rule rules p = Some v -> tame v.
Proof.
  induction rules as [|[r v0] rules IH]; simpl; intros Hall v; [discriminate|].
  destruct (String.eqb r p).
  - intros [= <-]. apply (Hall r); now left.
  - apply IH. intros r' v' Hin. apply (Hall r'); now right.
Qed.

Lemma tame_views (r : string) (v : M response) :
  In (r, v) Flask.url_map -> tame v.
Proof.
  unfold Flask.url_map; simpl.
  intros [[= <- <-]|[[= <- <-]|[[= <- <-]|[[= <- <-]|[]]]]].
  - apply tame_health.
  - apply tame_hello.
  - apply tame_slow.
  - apply tame_sometimes_errors.
Qed.

Lemma tame_dispatch_request : tame Flask.dispatch_request.
Proof.
  unfold Flask.dispatch_request.
  apply tame_bind; [apply tame_gets|]. intros rq.
  destruct (Flask.match_rule Flask.url_map (path rq)) as [view|] eqn:Hm.
  - pose proof (tame_match_rule _ _ tame_views _ Hm).
    auto with pres.
  - intros w e. unfold bind, gets, lift; simpl.
    destruct (builtin_rules _ _ _ _); try discriminate;
      intros [= <-]; reflexivity.
Qed.

(* ================================================================= *)
(** ** The completion hook *)

(** Telemetry calls that raise raise instances of [Exception]. *)
Definition tame_faults (o : outside) : Prop :=
  forall c e, telemetry_fault o c = Some e -> is_Exception e = true.

(** No telemetry call raises. *)
Definition no_faults (o : outside) : Prop :=
  forall c, telemetry_fault o c = None.

(** The metric and log events among [evs]. *)
Definition telemetry_events (evs : list event) : list event :=
  filter (fun e => negb (quiet e)) evs.

Definition log_lines (evs : list event) : list dict :=
  flat_map (fun e => match e with LogLine p => [p] | _ => [] end) evs.

(** The elapsed time, in milliseconds and still a float, that the hook
    computes in world [w]. *)
Definition elapsed (w : world) : float :=
  ((clock (out w) (clock_reads w)
    - match _start (current_request w) with
      | Some t => t
      | None => clock (out w) (S (clock_reads w))
      end) * 1000)%float.

(** The trace id the hook reads in world [w]. *)
Definition active_trace_id (w : world) : Z :=
  match span_stack w with
  | (_, t) :: _ => t
  | [] => 0
  end.

(** Everything the hook emits when nothing fails. *)
Definition report (w : world) (resp : response) (dur_ms : Z) : list event :=
  let rq := current_request w in
  [CounterAdd "requests_total" 1
     [("path", VStr (path rq)); ("method", VStr (method rq));
      ("status", VStr (Py.str_of_int (status_code resp)))];
   HistogramRecord "request_latency_ms" dur_ms
     [("path", VStr (path rq)); ("method", VStr (method rq))];
   LogLine
     [("event", VStr "request"); ("service", VStr (SERVICE_NAME (out w)));
      ("env", VStr (ENV (out w))); ("path", VStr (path rq));
      ("method", VStr (method rq)); ("status", VInt (status_code resp));
      ("latency_ms", VInt dur_ms);
      ("trace_id", VStr (Py.hex (active_trace_id w)))]].

Ltac unfold_after :=
  unfold _after, try_except_Exception, bind, lift, gets, time_time,
    req_counter_add, latency_hist_record, current_trace_id, log_json,
    logger_info, telemetry, emit, modify, ret.

Ltac after_step :=
  match goal with
  | |- context [match Py.int_of_float ?f with _ => _ end] =>
      destruct (Py.int_of_float f) eqn:?
  | |- context [match telemetry_fault ?o ?c with _ => _ end] =>
      destruct (telemetry_fault o c) eqn:?
  | |- context [if is_Exception ?e then _ else _] =>
      destruct (is_Exception e) eqn:?
  end.

Ltac after_cases := unfold_after; cbn; repeat (after_step; cbn).

Lemma tame_int_of_float (f : float) : tame_outcome (Py.int_of_float f).
Proof.
  intros e. unfold Py.int_of_float.
  destruct (Prim2SF f); try discriminate; intros [= <-]; reflexivity.
Qed.

(** Whatever happens inside, the hook hands back the response it was given,
    or lets through an exception that is not an [Exception]. *)
Lemma after_outcome (resp : response) (w : world) :
  fst (_after resp w) = Ret resp
  \/ exists c e, telemetry_fault (out w) c = Some e
                 /\ is_Exception e = false
                 /\ fst (_after resp w) = Raise e.
Proof.
  after_cases; try (left; reflexivity);
    try (right; eexists; eexists; repeat split; eassumption).
  exfalso.
  match goal with
  | H : Py.int_of_float _ = Raise ?e, H' : is_Exception ?e = false |- _ =>
      rewrite (tame_int_of_float _ _ H) in H'; discriminate
  end.
Qed.

Lemma after_swallows (resp : response) (w : world) :
  tame_faults (out w) -> fst (_after resp w) = Ret resp.
Proof.
  intros Ht. destruct (after_outcome resp w) as [H|(c & e & Hf & He & _)];
    [assumption|].
  rewrite (Ht _ _ Hf) in He; discriminate.
Qed.

(** The hook reads the clock twice and appends events; nothing else of the
    world changes. *)
Lemma after_frame (resp : response) (w : world) :
  exists evs,
    snd (_after resp w) = set_events (events w ++ evs) (tick_clock (tick_clock w))
    /\ (List.length (log_lines evs) <= 1)%nat.
Proof.
  after_cases;
    repeat rewrite <- app_assoc;
    try (eexists; split; [reflexivity | simpl; lia]);
    try (exists []; rewrite app_nil_r; split; [reflexivity | simpl; lia]).
Qed.

Lemma after_ok (resp : response) (w : world) (d : Z) :
  no_faults (out w) -> Py.int_of_float (elapsed w) = Ret d ->
  _after resp w
  = (Ret resp,
     set_events (events w ++ report w resp d) (tick_clock (tick_clock w))).
Proof.
  intros Hn Hd. unfold elapsed in Hd. unfold_after; cbn.
  rewrite Hd; cbn. repeat (rewrite Hn; cbn).
  repeat rewrite <- app_assoc. reflexivity.
Qed.

(* ================================================================= *)
(** ** One request, from context push to response *)

(** The response Flask makes of what dispatch returned or raised. *)
Definition response_of (o : outcome response) : response :=
  match o with
  | Ret r => r
  | Raise (HTTPException code) => Flask.error_response code
  | Raise _ => Flask.error_response 500
  end.

(** Serving a request is: start the timer, dispatch, and run the completion
    hook once, on the response made of the outcome of dispatch. *)
Lemma serve_eq (rq : request) (w : world) :
  Flask.serve rq w
  = let w1 := snd (_start_timer (Flask.push rq w)) in
    _after (response_of (fst (Flask.dispatch_request w1)))
      (snd (Flask.dispatch_request w1)).
Proof.
  unfold Flask.serve, Flask.wsgi_app, Flask.full_dispatch_request,
    Flask.finalize_request, Flask.preprocess_request, Flask.process_response,
    Flask.handle_exception.
  cbv zeta.
  remember (snd (_start_timer (Flask.push rq w))) as w1 eqn:Hw1.
  assert (Hst : _start_timer (Flask.push rq w) = (Ret tt, w1))
    by (subst w1; reflexivity).
  unfold try_except_Exception at 1 2 3. unfold bind at 1 2.
  rewrite Hst.
  pose proof (tame_dispatch_request w1) as Htame.
  destruct (Flask.dispatch_request w1) as [[r|e] w2]; simpl in *.
  - unfold try_except_Exception.
    destruct (after_outcome r w2) as [H|(c & e & _ & He & H)];
      destruct (_after r w2) as [o w3]; simpl in H; subst o;
      [reflexivity | simpl; rewrite !He; reflexivity].
  - pose proof (Htame e eq_refl) as HE.
    destruct e; try discriminate HE; simpl;
      unfold Flask.finalize_request, Flask.process_response,
        try_except_Exception;
      match goal with
      | |- context [_after ?r w2] =>
          destruct (after_outcome r w2) as [H|(c & e' & _ & He & H)];
          destruct (_after r w2) as [o w3]; simpl in H; subst o;
          [reflexivity | simpl; rewrite ?He; simpl; rewrite ?He; reflexivity]
      end.
Qed.

(* ----------------------------------------------------------------- *)
(** *** What a view leaves alone, and what it keeps true *)

(** A view changes neither the outside, nor the clock position, nor the
    request, nor the metric and log events. *)
Definition frame_inv (o : outside) (n : nat) (rq : request)
    (tel : list event) (w : world) : Prop :=
  out w = o /\ clock_reads w = n /\ current_request w = rq
  /\ telemetry_events (events w) = tel.

Lemma telemetry_events_quiet (evs : list event) (e : event) :
  quiet e = true -> telemetry_events (evs ++ [e]) = telemetry_events evs.
Proof.
  intros H. unfold telemetry_events. rewrite filter_app; simpl.
  rewrite H; simpl. apply app_nil_r.
Qed.

Lemma frame_steady (o : outside) (n : nat) (rq : request) (tel : list event) :
  steady (frame_inv o n rq tel).
Proof.
  unfold frame_inv. constructor; simpl; intros; try tauto.
  rewrite telemetry_events_quiet by assumption. tauto.
Qed.

(** The cache invariants together. *)
Definition memo_inv (w : world) : Prop :=
  lru_wf 256 (memo w) /\ squares (memo w).

Lemma memo_steady : steady memo_inv.
Proof.
  unfold memo_inv. constructor; simpl; intros; try tauto.
  - destruct H0 as [Hwf Hsq]. split; [now apply hit_wf | now apply hit_squares].
  - destruct H0 as [Hwf Hsq]. split.
    + apply store_wf; [lia | now apply miss_wf].
    + apply store_squares. exact Hsq.
Qed.

Lemma memo_inv_boot (o : outside) : memo_inv (boot o).
Proof.
  split.
  - unfold lru_wf, functools.keys, functools.cache_len; simpl.
    split; [apply NoDup_nil | split; [apply Nat.le_0_l | reflexivity]].
  - intros k r [].
Qed.

Lemma dispatch_frame (rq : request) (w : world) :
  let w1 := snd (_start_timer (Flask.push rq w)) in
  let w2 := snd (Flask.dispatch_request w1) in
  out w2 = out w
  /\ clock_reads w2 = S (clock_reads w)
  /\ current_request w2
     = {| path := path rq; method := method rq; args := args rq;
          _start := Some (clock (out w) (clock_reads w)) |}
  /\ telemetry_events (events w2) = telemetry_events (events w).
Proof.
  intros w1 w2.
  apply (preserves_dispatch_request _ (frame_steady _ _ _ _) w1).
  repeat split.
Qed.

Lemma serve_memo_inv (rq : request) (w : world) :
  memo_inv w -> memo_inv (snd (Flask.serve rq w)).
Proof.
  intros H. rewrite serve_eq. cbv zeta.
  match goal with |- memo_inv (snd (_after ?r ?w2)) =>
    destruct (after_frame r w2) as [evs [-> _]];
    assert (H2 : memo_inv w2)
  end.
  - apply (preserves_dispatch_request _ memo_steady). exact H.
  - exact H2.
Qed.

Lemma serve_all_memo_inv (rqs : list request) (w : world) :
  memo_inv w -> memo_inv (serve_all rqs w).
Proof.
  revert w. induction rqs as [|rq rqs IH]; simpl; intros w H; [assumption|].
  apply IH. now apply serve_memo_inv.
Qed.

Lemma call_all_memo_inv (ks : list Z) (w : world) :
  memo_inv w -> memo_inv (call_all ks w).
Proof.
  revert w. induction ks as [|k ks IH]; simpl; intros w H; [assumption|].
  apply IH. now apply (preserves_cached _ memo_steady).
Qed.

(* ================================================================= *)
(** ** The memo table *)

Lemma in_lastn (A : Type) (n : nat) (l : list A) (x : A) :
  In x (lastn n l) -> In x l.
Proof.
  unfold lastn. intros H.
  rewrite <- (firstn_skipn (List.length l - n) l).
  apply in_or_app; now right.
Qed.

(** Distinct keys, none of them cached yet, called in turn: the table ends
    up with the last 256 of all the keys it has seen, oldest first. *)
Lemma call_all_keys (ks : list Z) :
  forall w,
    lru_wf 256 (memo w) -> NoDup ks ->
    (forall k, In k ks -> ~ In k (functools.keys (memo w))) ->
    functools.keys (memo (call_all ks w))
    = lastn 256 (functools.keys (memo w) ++ ks).
Proof.
  induction ks as [|x ks IH]; intros w Hwf Hnd Hnew; simpl.
  - rewrite app_nil_r. symmetry. apply lastn_short.
    unfold functools.keys. rewrite length_map. apply Hwf.
  - assert (Hget : functools.cache_get x (memo w) = None)
      by (apply lookup_none, Hnew; now left).
    rewrite (cached_miss _ _ Hget). simpl snd.
    set (c' := functools.store 256 x (x * x) (functools.miss (memo w))).
    assert (Hk : functools.keys c'
                 = lastn 256 (functools.keys (memo w) ++ [x]))
      by (apply (store_keys 256 x (x * x) (functools.miss (memo w)));
          [lia | now apply miss_wf | exact Hget]).
    inversion Hnd as [|? ? Hx Hks]; subst.
    rewrite IH; simpl memo.
    + fold c'. rewrite Hk, lastn_lastn_app, <- app_assoc. reflexivity.
    + apply store_wf; [lia | now apply miss_wf].
    + exact Hks.
    + intros k Hin Hc. fold c' in Hc. rewrite Hk in Hc.
      apply in_lastn, in_app_iff in Hc. destruct Hc as [Hc|[<-|[]]].
      * apply (Hnew k); [now right | exact Hc].
      * exact (Hx Hin).
Qed.

(** The keys in the order of their last use, the least recently used first:
    a key that is used goes to the recent end. *)
Definition use (order : list Z) (k : Z) : list Z :=
  filter (fun k' => negb (k' =? k)) order ++ [k].

(** The order of use after the keys [ks] were used in turn. *)
Definition use_order (order : list Z) (ks : list Z) : list Z :=
  fold_left use ks order.

Section Recency.

Import functools.

Lemma filter_absent (x : Z) (l : list Z) :
  ~ In x l -> filter (fun k => negb (k =? x)) l = l.
Proof.
  induction l as [|a l IH]; simpl; intros H; [reflexivity|].
  destruct (Z.eqb_spec a x) as [->|Hne]; [tauto|].
  simpl. f_equal. apply IH. tauto.
Qed.

Lemma filter_present_length (x : Z) (l : list Z) :
  NoDup l -> In x l ->
  S (List.length (filter (fun k => negb (k =? x)) l)) = List.length l.
Proof.
  induction l as [|a l IH]; simpl; intros Hnd Hin; [contradiction|].
  inversion Hnd as [|? ? Ha Hl]; subst.
  destruct (Z.eqb_spec a x) as [->|Hne]; simpl.
  - now rewrite filter_absent.
  - f_equal. apply IH; [assumption|]. destruct Hin; [congruence | assumption].
Qed.

(** Unlinking a key of the linked list takes it out of the keys. *)
Lemma unlink_filter (x : Z) (q : list (Z * Z)) :
  NoDup (map fst q) ->
  map fst (unlink x q) = filter (fun k => negb (k =? x)) (map fst q).
Proof.
  induction q as [|[k r] q IH]; simpl; intros Hnd; [reflexivity|].
  inversion Hnd as [|? ? Hk Hq]; subst.
  destruct (Z.eqb_spec k x) as [->|Hne]; simpl.
  - now rewrite filter_absent.
  - f_equal. now apply IH.
Qed.

Lemma use_nodup (order : list Z) (k : Z) : NoDup order -> NoDup (use order k).
Proof.
  intros H. unfold use. apply nodup_snoc.
  - now apply NoDup_filter.
  - rewrite filter_In, Z.eqb_refl. intros [_ E]; discriminate.
Qed.

(** A list is what [lastn] leaves out, then what it keeps. *)
Lemma lastn_split (A : Type) (n : nat) (l : list A) :
  exists a, l = a ++ lastn n l
            /\ (a = [] \/ List.length (lastn n l) = n).
Proof.
  exists (firstn (List.length l - n) l). unfold lastn.
  split; [now rewrite firstn_skipn|].
  destruct (Nat.le_gt_cases (List.length l) n) as [Hle|Hgt].
  - left. replace (List.length l - n)%nat with 0%nat by lia. reflexivity.
  - right. rewrite length_skipn. lia.
Qed.

Lemma lastn_app_tail (A : Type) (n : nat) (a x : list A) :
  (List.length x <= n)%nat -> a = [] \/ List.length x = n ->
  lastn n (a ++ x) = x.
Proof.
  intros Hle [->|Hn]; [now apply lastn_short|].
  unfold lastn. rewrite length_app, Hn.
  replace (List.length a + n - n)%nat with (List.length a + 0)%nat by lia.
  now rewrite skipn_app, Nat.add_0_r, skipn_all, Nat.sub_diag.
Qed.

(** Using a key that is among the last [n] reorders these. *)
Lemma use_window_hit (n : nat) (order : list Z) (x : Z) :
  NoDup order -> In x (lastn n order) ->
  use (lastn n order) x = lastn n (use order x).
Proof.
  intros Hnd Hin.
  destruct (lastn_split Z n order) as (a & Eo & Ha).
  set (t := lastn n order) in *.
  assert (Hnd' : NoDup (a ++ t)) by (rewrite <- Eo; exact Hnd).
  assert (Hna : ~ In x a).
  { intros Hxa. apply NoDup_app_remove_l in Hnd' as Ht.
    rewrite Eo in Hnd. clear - Hnd Hxa Hin.
    induction a as [|b a IH]; [contradiction|].
    simpl in Hnd. inversion Hnd as [|? ? Hb Hr]; subst.
    destruct Hxa as [->|Hxa]; [|now apply IH].
    apply Hb, in_or_app. now right. }
  unfold use at 2. rewrite Eo, filter_app, (filter_absent x a Hna).
  rewrite <- app_assoc. fold (use t x). symmetry.
  assert (Hl : List.length (use t x) = List.length t).
  { unfold use. rewrite length_app. simpl.
    pose proof (filter_present_length x t
                  (NoDup_app_remove_l _ _ Hnd') Hin). lia. }
  apply lastn_app_tail.
  - rewrite Hl. unfold t, lastn. rewrite length_skipn. lia.
  - destruct Ha as [Ha|Ha]; [now left | right; now rewrite Hl].
Qed.

(** Using a key that is not among the last [n] pushes the oldest of them
    out. *)
Lemma use_window_miss (n : nat) (order : list Z) (x : Z) :
  ~ In x (lastn n order) ->
  lastn n (lastn n order ++ [x]) = lastn n (use order x).
Proof.
  intros Hnin.
  destruct (lastn_split Z n order) as (a & Eo & Ha).
  set (t := lastn n order) in *.
  unfold use. rewrite Eo at 1. rewrite filter_app, (filter_absent x t Hnin).
  destruct Ha as [->|Ha]; [reflexivity|].
  rewrite <- (lastn_lastn_app _ n (filter _ a ++ t) [x]).
  f_equal. f_equal. symmetry. apply lastn_app_tail; [lia | now right].
Qed.

End Recency.

(** One call of the cached function, on the keys of the table: the table
    keeps the last 256 keys of the order of use. *)
Lemma cached_use (w : world) (x : Z) (order : list Z) :
  lru_wf 256 (memo w) -> NoDup order ->
  functools.keys (memo w) = lastn 256 order ->
  functools.keys (memo (snd (expensive_compute_cached x w)))
  = lastn 256 (use order x)
  /\ lru_wf 256 (memo (snd (expensive_compute_cached x w))).
Proof.
  intros Hwf Hnd Hk.
  destruct (functools.cache_get x (memo w)) as [r|] eqn:Hget.
  - rewrite (cached_hit _ _ _ Hget). simpl. split; [|now apply hit_wf].
    unfold functools.keys, functools.hit; simpl.
    rewrite keys_snoc, (unlink_filter x _ (proj1 Hwf)).
    fold (functools.keys (memo w)). rewrite Hk.
    apply (use_window_hit 256 order x Hnd).
    rewrite <- Hk. apply lookup_some in Hget.
    apply in_map_iff. exists (x, r). now split.
  - rewrite (cached_miss _ _ Hget). simpl.
    split; [|apply store_wf; [lia | now apply miss_wf]].
    rewrite (store_keys 256 x (x * x) (functools.miss (memo w)));
      [| lia | now apply miss_wf | exact Hget].
    change (functools.keys (functools.miss (memo w)))
      with (functools.keys (memo w)).
    rewrite Hk. apply use_window_miss.
    rewrite <- Hk. now apply lookup_none.
Qed.

Lemma call_all_use (ks : list Z) :
  forall (w : world) (order : list Z),
    lru_wf 256 (memo w) -> NoDup order ->
    functools.keys (memo w) = lastn 256 order ->
    functools.keys (memo (call_all ks w)) = lastn 256 (use_order order ks).
Proof.
  induction ks as [|x ks IH]; intros w order Hwf Hnd Hk; simpl; [exact Hk|].
  destruct (cached_use w x order Hwf Hnd Hk) as [Hk' Hwf'].
  apply IH; [exact Hwf' | now apply use_nodup | exact Hk'].
Qed.

(** C1.  The memo table of the cached compute function never holds more
    than 256 entries, after any sequence of requests and of direct calls.  A
    call on a key of the table moves that key to the recent end of the list
    and keeps the others in their order; a call on a new key, when the table
    holds 256 entries, drops exactly the head of the list and puts the new
    key at the recent end.  So the list is the order of last use, and after
    any calls the table holds the 256 most recently used keys: whatever is
    evicted is the least recently used.  After 257 distinct keys on a fresh
    table, the table holds 256 entries: all the keys but the first. *)
Theorem memo_table_bounded_lru :
  (forall (o : outside) (rqs : list request) (ks : list Z),
      (functools.cache_len (memo (call_all ks (serve_all rqs (boot o))))
       <= 256)%nat)
  /\ (forall (w : world) (x r : Z),
         functools.cache_get x (memo w) = Some r ->
         functools.queue (memo (snd (expensive_compute_cached x w)))
         = functools.unlink x (functools.queue (memo w)) ++ [(x, r)])
  /\ (forall (w : world) (x : Z),
         lru_wf 256 (memo w) ->
         functools.cache_len (memo w) = 256%nat ->
         functools.cache_get x (memo w) = None ->
         functools.queue (memo (snd (expensive_compute_cached x w)))
         = tl (functools.queue (memo w)) ++ [(x, x * x)])
  /\ (forall (w : world) (ks : list Z),
         lru_wf 256 (memo w) ->
         functools.keys (memo (call_all ks w))
         = lastn 256 (use_order (functools.keys (memo w)) ks))
  /\ (forall (o : outside) (ks : list Z),
         NoDup ks -> List.length ks = 257%nat ->
         functools.keys (memo (call_all ks (boot o))) = tl ks
         /\ functools.cache_len (memo (call_all ks (boot o))) = 256%nat).
Proof.
  split; [|split; [|split; [|split]]].
  - intros o rqs ks.
    apply (call_all_memo_inv ks), (serve_all_memo_inv rqs), memo_inv_boot.
  - intros w x r Hget. now rewrite (cached_hit _ _ _ Hget).
  - intros w x (Hnd & Hlen & Hfull) Hsize Hget.
    rewrite (cached_miss _ _ Hget). simpl.
    unfold functools.store. simpl.
    unfold functools.cache_get in *. simpl. rewrite Hget, Hfull.
    rewrite Hsize. reflexivity.
  - intros w ks Hwf.
    apply call_all_use; [exact Hwf | apply Hwf |].
    symmetry. apply lastn_short.
    unfold functools.keys. rewrite length_map. apply Hwf.
  - intros o ks Hnd Hlen.
    assert (Hk : functools.keys (memo (call_all ks (boot o))) = tl ks).
    { rewrite call_all_keys; [| apply memo_inv_boot | exact Hnd | intros k _ []].
      simpl. unfold lastn. rewrite Hlen.
      destruct ks; [discriminate | reflexivity]. }
    split; [exact Hk|].
    unfold functools.cache_len.
    rewrite <- (length_map fst). fold (functools.keys (memo (call_all ks (boot o)))).
    rewrite Hk. destruct ks; simpl in *; lia.
Qed.

(** A sample outside: no environment variable set, a clock that advances a
    quarter of a second per reading, a generator that always draws one half,
    a telemetry SDK that never raises, a platform that waits out every
    sleep, and no file in the static folder. *)
Definition calm : outside :=
  {| environ := [];
     clock := fun n => (100 + 0.25 * PrimFloat.of_uint63 (Uint63.of_Z (Z.of_nat n)))%float;
     random_source := fun _ => 0.5%float;
     trace_id_source := fun n => Z.of_nat n + 1;
     telemetry_fault := fun _ => None;
     long_sleep_fault := fun _ => None;
     builtin_rules := fun _ _ _ => Aborted 404 |}.

Definition first_keys (n : nat) : list Z := map Z.of_nat (seq 0 n).

Lemma first_keys_nodup (n : nat) : NoDup (first_keys n).
Proof.
  unfold first_keys.
  induction (seq_NoDup n 0) as [|a l Ha Hl IH]; simpl; constructor;
    [|assumption].
  rewrite in_map_iff. intros [b [E Hb]].
  apply Nat2Z.inj in E; subst; contradiction.
Qed.

Lemma memo_table_bounded_lru_witness :
  (functools.keys (memo (call_all (first_keys 257) (boot calm)))
   = tl (first_keys 257)
   /\ functools.cache_len (memo (call_all (first_keys 257) (boot calm)))
      = 256%nat)
  /\ functools.keys
       (memo (call_all (first_keys 256 ++ [0; 256]) (boot calm)))
     = map Z.of_nat (seq 2 254) ++ [0; 256].
Proof.
  split.
  - exact (proj2 (proj2 (proj2 (proj2 memo_table_bounded_lru)))
             calm (first_keys 257) (first_keys_nodup 257) eq_refl).
  - refine (eq_trans
              (proj1 (proj2 (proj2 (proj2 memo_table_bounded_lru)))
                 (boot calm) (first_keys 256 ++ [0; 256])
                 (proj1 (memo_inv_boot calm)))
              _).
    vm_compute. reflexivity.
Defined.

(** C2.  In every state the service can reach, by requests and by direct
    calls, both compute variants return the square of their argument: the
    uncached one sleeps and leaves the memo table as it was, the cached one
    returns the square on a hit as on a miss. *)
Theorem compute_variants_square :
  forall (o : outside) (rqs : list request) (ks : list Z) (x : Z),
    let w := call_all ks (serve_all rqs (boot o)) in
    expensive_compute_uncached x w
    = (Ret (x * x), set_events (events w ++ [Sleep 0.8%float]) w)
    /\ memo (snd (expensive_compute_uncached x w)) = memo w
    /\ fst (expensive_compute_cached x w) = Ret (x * x)
    /\ (forall r, functools.cache_get x (memo w) = Some r -> r = x * x).
Proof.
  intros o rqs ks x w.
  assert (Hinv : memo_inv w)
    by apply (call_all_memo_inv ks), (serve_all_memo_inv rqs), memo_inv_boot.
  assert (Hhit : forall r, functools.cache_get x (memo w) = Some r -> r = x * x)
    by (intros r Hr; apply (proj2 Hinv), lookup_some, Hr).
  repeat split; try assumption.
  destruct (functools.cache_get x (memo w)) as [r|] eqn:Hget.
  - rewrite (cached_hit _ _ _ Hget). simpl. f_equal. now apply Hhit.
  - now rewrite (cached_miss _ _ Hget).
Qed.

(** C5.  Two calls of the cached function on the same argument, one after
    the other, return the same value.  The second is a hit: it does not
    sleep (no event is added, nothing is recomputed), it counts one more hit
    and no more miss, and it leaves the argument where the first call put it,
    at the most recently used end of the table. *)
Theorem cached_twice :
  forall (w : world) (x : Z),
    lru_wf 256 (memo w) ->
    let (r1, w1) := expensive_compute_cached x w in
    let (r2, w2) := expensive_compute_cached x w1 in
    exists v : Z,
      r1 = Ret v /\ r2 = Ret v
      /\ functools.cache_get x (memo w1) = Some v
      /\ w2 = set_memo (functools.hit x v (memo w1)) w1
      /\ events w2 = events w1
      /\ functools.hits (memo w2) = S (functools.hits (memo w1))
      /\ functools.misses (memo w2) = functools.misses (memo w1)
      /\ functools.queue (memo w2) = functools.queue (memo w1)
      /\ last (functools.keys (memo w2)) x = x
      /\ In x (functools.keys (memo w2)).
Proof.
  intros w x Hwf.
  assert (Hfirst : exists v q,
             expensive_compute_cached x w
             = (Ret v, snd (expensive_compute_cached x w))
             /\ functools.queue (memo (snd (expensive_compute_cached x w)))
                = q ++ [(x, v)]
             /\ ~ In x (map fst q)).
  { destruct (functools.cache_get x (memo w)) as [r|] eqn:Hget.
    - rewrite (cached_hit _ _ _ Hget). simpl.
      exists r, (functools.unlink x (functools.queue (memo w))).
      repeat split. apply unlink_nodup, Hwf.
    - rewrite (cached_miss _ _ Hget). simpl.
      pose proof Hget as Hnew. apply lookup_none in Hnew.
      unfold functools.store, functools.cache_get in *. simpl. rewrite Hget.
      destruct (functools.full (memo w)); simpl.
      + exists (x * x), (tl (functools.queue (memo w))). repeat split.
        intros Hin. apply Hnew.
        destruct (functools.queue (memo w)); [assumption | now right].
      + exists (x * x), (functools.queue (memo w)). repeat split. exact Hnew. }
  destruct Hfirst as (v & q & Hcall & Hq & Hx).
  destruct (expensive_compute_cached x w) as [r1 w1]. simpl in *.
  injection Hcall as ->.
  assert (Hget : functools.cache_get x (memo w1) = Some v)
    by (unfold functools.cache_get; rewrite Hq; now apply lookup_last).
  rewrite (cached_hit _ _ _ Hget).
  exists v. simpl. rewrite Hq, (unlink_last _ _ _ Hx).
  repeat split; try assumption.
  - unfold functools.keys; simpl. rewrite keys_snoc. apply last_last.
  - unfold functools.keys; simpl. rewrite keys_snoc.
    apply in_or_app; right; now left.
Qed.

Lemma cached_twice_witness :
  let (r1, w1) := expensive_compute_cached 5 (boot calm) in
  let (r2, w2) := expensive_compute_cached 5 w1 in
  exists v : Z,
    r1 = Ret v /\ r2 = Ret v
    /\ functools.cache_get 5 (memo w1) = Some v
    /\ w2 = set_memo (functools.hit 5 v (memo w1)) w1
    /\ events w2 = events w1
    /\ functools.hits (memo w2) = S (functools.hits (memo w1))
    /\ functools.misses (memo w2) = functools.misses (memo w1)
    /\ functools.queue (memo w2) = functools.queue (memo w1)
    /\ last (functools.keys (memo w2)) 5 = 5
    /\ In 5 (functools.keys (memo w2)).
Proof.
  exact (cached_twice (boot calm) 5 (proj1 (memo_inv_boot calm))).
Defined.

(* ================================================================= *)
(** ** The instrumentation hooks *)

(** A telemetry SDK whose histogram export raises. *)
Definition flaky : outside :=
  {| environ := [];
     clock := fun n => (100 + 0.25 * PrimFloat.of_uint63 (Uint63.of_Z (Z.of_nat n)))%float;
     random_source := fun _ => 0.5%float;
     trace_id_source := fun n => Z.of_nat n + 1;
     telemetry_fault :=
       fun c =>
         match c with
         | HistogramRecordCall => Some (OtherException "export failed")
         | _ => None
         end;
     long_sleep_fault := fun _ => None;
     builtin_rules := fun _ _ _ => Aborted 404 |}.

Lemma flaky_tame : tame_faults flaky.
Proof. intros [] e; simpl; try discriminate. intros [= <-]; reflexivity. Qed.

Lemma calm_no_faults : no_faults calm.
Proof. intros c; reflexivity. Qed.

Definition get (p : string) (a : list (string * string)) : request :=
  {| path := p; method := "GET"; args := a; _start := None |}.

(** The response a request gets when the completion hook is left aside:
    what dispatch returned, or the error response Flask makes of what it
    raised. *)
Definition handler_response (rq : request) (w : world) : response :=
  response_of
    (fst (Flask.dispatch_request (snd (_start_timer (Flask.push rq w))))).

Lemma serve_response (rq : request) (w : world) :
  tame_faults (out w) ->
  fst (Flask.serve rq w) = Ret (handler_response rq w).
Proof.
  intros Ht. unfold handler_response. rewrite serve_eq. cbv zeta.
  apply after_swallows.
  destruct (dispatch_frame rq w) as (-> & _). exact Ht.
Qed.

(** C3.  When the telemetry calls that fail raise instances of
    [Exception], whichever of them fail, the completion hook returns the
    response it was given, status and body untouched, and every request is
    answered with the response its handler produced. *)
Theorem completion_failures_swallowed :
  forall (w : world) (resp : response),
    tame_faults (out w) ->
    fst (_after resp w) = Ret resp
    /\ (forall rq : request,
           fst (Flask.serve rq w) = Ret (handler_response rq w)).
Proof.
  intros w resp Ht. split; [now apply after_swallows|].
  intros rq. now apply serve_response.
Qed.

Lemma completion_failures_swallowed_witness :
  fst (_after (json_response [("ok", VBool true)] 200) (boot flaky))
  = Ret (json_response [("ok", VBool true)] 200)
  /\ (forall rq : request,
         fst (Flask.serve rq (boot flaky))
         = Ret (handler_response rq (boot flaky))).
Proof.
  exact (completion_failures_swallowed (boot flaky)
           (json_response [("ok", VBool true)] 200) flaky_tame).
Defined.

(** C6, as the code has it.  Whatever the handler did (returned, or raised
    and was turned into an error response), the completion hook runs once on
    the response.  When no telemetry call raises and the elapsed time
    converts to an integer, it adds exactly one counter increment, one
    histogram record and one log record, and the path, method and status of
    the log record are those of the request and of the response. *)
Theorem completion_once_logged :
  forall (w : world) (rq : request) (d : Z),
    no_faults (out w) ->
    Py.int_of_float
      ((clock (out w) (S (clock_reads w)) - clock (out w) (clock_reads w))
       * 1000)%float = Ret d ->
    exists (w' : world) (tid : Z),
      Flask.serve rq w = (Ret (handler_response rq w), w')
      /\ telemetry_events (events w')
         = telemetry_events (events w)
           ++ [CounterAdd "requests_total" 1
                 [("path", VStr (path rq)); ("method", VStr (method rq));
                  ("status",
                   VStr (Py.str_of_int (status_code (handler_response rq w))))];
               HistogramRecord "request_latency_ms" d
                 [("path", VStr (path rq)); ("method", VStr (method rq))];
               LogLine
                 [("event", VStr "request");
                  ("service", VStr (SERVICE_NAME (out w)));
                  ("env", VStr (ENV (out w)));
                  ("path", VStr (path rq)); ("method", VStr (method rq));
                  ("status", VInt (status_code (handler_response rq w)));
                  ("latency_ms", VInt d);
                  ("trace_id", VStr (Py.hex tid))]].
Proof.
  intros w rq d Hn Hd.
  unfold handler_response. rewrite serve_eq. cbv zeta.
  destruct (dispatch_frame rq w) as (Hout & Hclk & Hrq & Htel).
  set (w1 := snd (_start_timer (Flask.push rq w))) in *.
  set (w2 := snd (Flask.dispatch_request w1)) in *.
  set (resp := response_of (fst (Flask.dispatch_request w1))).
  assert (Hel : Py.int_of_float (elapsed w2) = Ret d)
    by (unfold elapsed; rewrite Hout, Hclk, Hrq; exact Hd).
  assert (Hn2 : no_faults (out w2)) by (rewrite Hout; exact Hn).
  rewrite (after_ok resp w2 d Hn2 Hel).
  eexists. exists (active_trace_id w2). split; [reflexivity|].
  simpl events. unfold telemetry_events in *. rewrite filter_app, Htel.
  unfold report. rewrite Hrq, Hout. reflexivity.
Qed.

Lemma completion_once_logged_witness :
  exists (w' : world) (tid : Z),
    Flask.serve (get "/health" []) (boot calm)
    = (Ret (handler_response (get "/health" []) (boot calm)), w')
    /\ telemetry_events (events w')
       = telemetry_events (events (boot calm))
         ++ [CounterAdd "requests_total" 1
               [("path", VStr "/health"); ("method", VStr "GET");
                ("status",
                 VStr (Py.str_of_int
                         (status_code
                            (handler_response (get "/health" []) (boot calm)))))];
             HistogramRecord "request_latency_ms" 250
               [("path", VStr "/health"); ("method", VStr "GET")];
             LogLine
               [("event", VStr "request");
                ("service", VStr (SERVICE_NAME calm));
                ("env", VStr (ENV calm));
                ("path", VStr "/health"); ("method", VStr "GET");
                ("status",
                 VInt (status_code
                         (handler_response (get "/health" []) (boot calm))));
                ("latency_ms", VInt 250);
                ("trace_id", VStr (Py.hex tid))]].
Proof.
  exact (completion_once_logged (boot calm) (get "/health" []) 250
           calm_no_faults eq_refl).
Defined.

(** C6, as stated, fails: with a histogram export that raises, a request
    to [/health] completes with status 200 and leaves no log record. *)
Lemma completed_request_without_log_line :
  fst (Flask.serve (get "/health" []) (boot flaky))
  = Ret (json_response
           [("ok", VBool true); ("service", VStr "observability-lab");
            ("env", VStr "dev")] 200)
  /\ log_lines (events (snd (Flask.serve (get "/health" []) (boot flaky))))
     = [].
Proof. vm_compute. split; reflexivity. Qed.

(* ================================================================= *)
(** ** The views *)

Lemma int_of_str_raises (s : string) (e : exn) :
  Py.int_of_str s = Raise e -> exists msg, e = ValueError msg.
Proof.
  unfold Py.int_of_str.
  destruct (Py.split_sign _) as [neg txt].
  destruct (Py.take_numeral txt) as [numeral rest].
  destruct (Py.int_digits 0 false numeral);
    [|intros [= <-]; eexists; reflexivity].
  destruct (_ <? _)%nat; [intros [= <-]; eexists; reflexivity|].
  destruct rest; [discriminate | intros [= <-]; eexists; reflexivity].
Qed.

Lemma float_of_str_raises (s : string) (e : exn) :
  Py.float_of_str s = Raise e -> exists msg, e = ValueError msg.
Proof.
  unfold Py.float_of_str.
  destruct (Py.split_sign _) as [neg txt].
  repeat match goal with
         | |- context [if ?b then _ else _] => destruct b
         | |- context [match ?x with _ => _ end] => destruct x
         end; try discriminate; intros [= <-]; eexists; reflexivity.
Qed.

(** A [GET] request to a registered path runs the view of that path. *)
Lemma dispatch_get (w : world) (view : M response) :
  method (current_request w) = "GET" ->
  Flask.match_rule Flask.url_map (path (current_request w)) = Some view ->
  Flask.dispatch_request w = view w.
Proof.
  intros Hm Hr. unfold Flask.dispatch_request, bind, gets.
  rewrite Hr, Hm. reflexivity.
Qed.


(** C9.  A [GET] request whose numeric parameter does not convert ([x] on
    [/slow], [delay_ms] on [/hello], [rate] on [/error]) makes the view raise
    the [ValueError] of the conversion; nothing handles it, no default is
    applied, and the answer is the 500 error response. *)
Theorem unparseable_parameter_is_500 :
  forall (w : world) (rq : request) (e : exn),
    tame_faults (out w) ->
    method rq = "GET" ->
    (path rq = "/slow"
     /\ Py.int_of_str (args_get (args rq) "x" "7") = Raise e)
    \/ (path rq = "/hello"
        /\ Py.int_of_str (args_get (args rq) "delay_ms" "0") = Raise e)
    \/ (path rq = "/error"
        /\ Py.float_of_str (args_get (args rq) "rate" "0.2") = Raise e) ->
    (exists msg, e = ValueError msg)
    /\ fst (Flask.dispatch_request (snd (_start_timer (Flask.push rq w))))
       = Raise e
    /\ fst (Flask.serve rq w) = Ret (Flask.error_response 500).
Proof.
  intros w rq e Ht Hm Hbad.
  assert (Hval : exists msg, e = ValueError msg)
    by (destruct Hbad as [[_ H]|[[_ H]|[_ H]]];
        [eapply int_of_str_raises | eapply int_of_str_raises
         | eapply float_of_str_raises]; exact H).
  set (w1 := snd (_start_timer (Flask.push rq w))).
  assert (Hd : fst (Flask.dispatch_request w1) = Raise e).
  { destruct Hbad as [[Hp H]|[[Hp H]|[Hp H]]].
    - rewrite (dispatch_get w1 slow); [|exact Hm | simpl; now rewrite Hp].
      unfold slow, bind, gets, lift. simpl. now rewrite H.
    - rewrite (dispatch_get w1 hello); [|exact Hm | simpl; now rewrite Hp].
      unfold hello, bind, gets, lift. simpl. now rewrite H.
    - rewrite (dispatch_get w1 sometimes_errors);
        [|exact Hm | simpl; now rewrite Hp].
      unfold sometimes_errors, bind, gets, lift. simpl. now rewrite H. }
  repeat split; [exact Hval | exact Hd |].
  rewrite (serve_response rq w Ht).
  unfold handler_response. fold w1. rewrite Hd.
  destruct Hval as [msg ->]. reflexivity.
Qed.

Lemma unparseable_parameter_is_500_witness :
  (exists msg,
      ValueError "invalid literal for int() with base 10" = ValueError msg)
  /\ fst (Flask.dispatch_request
            (snd (_start_timer
                    (Flask.push (get "/slow" [("x", "abc")]) (boot flaky)))))
     = Raise (ValueError "invalid literal for int() with base 10")
  /\ fst (Flask.serve (get "/slow" [("x", "abc")]) (boot flaky))
     = Ret (Flask.error_response 500).
Proof.
  exact (unparseable_parameter_is_500 (boot flaky)
           (get "/slow" [("x", "abc")])
           (ValueError "invalid literal for int() with base 10")
           flaky_tame eq_refl (or_introl (conj eq_refl eq_refl))).
Defined.

Lemma ltb_zero_of_nonneg (u : float) :
  (0 <=? u)%float = true -> (u <? 0)%float = false.
Proof.
  rewrite leb_spec, ltb_spec. unfold SFleb, SFltb.
  change (Prim2SF 0) with (S754_zero false).
  destruct (Prim2SF u) as [s|s| |s m e]; simpl; try destruct s;
    congruence.
Qed.



(** The answer of [/slow] once the compute function returned [res]. *)
Lemma jsonify_slow (res : Z) (cache_on : bool) (w : world) :
  jsonify [("result", VInt res); ("cache", VBool cache_on)] 200 w
  = (if Py.exceeds_str_digits res
     then Raise Py.digit_limit_error
     else Ret (json_response
                 [("result", VInt res); ("cache", VBool cache_on)] 200),
     w).
Proof.
  unfold jsonify. cbn [forallb serializable snd].
  destruct (Py.exceeds_str_digits res); reflexivity.
Qed.





(* ================================================================= *)
(** ** Binary64 facts behind the latency *)

(** A float that is not below zero: a zero, a positive number, plus
    infinity.  NaN is let through: it never converts to an integer. *)
Definition nonneg_SF (x : spec_float) : Prop :=
  match x with
  | S754_finite true _ _ => False
  | S754_infinity true => False
  | _ => True
  end.

Section Binary64.

Lemma digits2_bounds (m : positive) :
  2 ^ (Zpos (digits2_pos m) - 1) <= Zpos m < 2 ^ Zpos (digits2_pos m).
Proof.
  induction m as [m IH|m IH|]; simpl digits2_pos.
  - rewrite Pos2Z.inj_succ, Pos2Z.inj_xI.
    replace (Z.succ (Zpos (digits2_pos m)) - 1) with
      (Z.succ (Zpos (digits2_pos m) - 1)) by lia.
    rewrite !Z.pow_succ_r by lia.
    set (lo := 2 ^ (Zpos (digits2_pos m) - 1)) in *.
    set (hi := 2 ^ Zpos (digits2_pos m)) in *.
    clearbody lo hi. lia.
  - rewrite Pos2Z.inj_succ, (Pos2Z.inj_xO m).
    replace (Z.succ (Zpos (digits2_pos m)) - 1) with
      (Z.succ (Zpos (digits2_pos m) - 1)) by lia.
    rewrite !Z.pow_succ_r by lia.
    set (lo := 2 ^ (Zpos (digits2_pos m) - 1)) in *.
    set (hi := 2 ^ Zpos (digits2_pos m)) in *.
    clearbody lo hi. lia.
  - simpl. lia.
Qed.

Lemma iter_xO_value (m d : positive) :
  Zpos (Pos.iter xO m d) = Zpos m * 2 ^ Zpos d.
Proof.
  induction d as [|d IH] using Pos.peano_ind.
  - simpl. lia.
  - rewrite Pos.iter_succ, (Pos2Z.inj_xO (Pos.iter xO m d)), IH, Pos2Z.inj_succ.
    rewrite Z.pow_succ_r by lia. lia.
Qed.

Lemma shl_align_value (m : positive) (e e' : Z) :
  e' <= e -> Zpos (fst (shl_align m e e')) = Zpos m * 2 ^ (e - e').
Proof.
  intros H. unfold shl_align.
  destruct (e' - e) as [|d|d] eqn:E; cbn [fst].
  - replace (e - e') with 0 by lia. rewrite Z.pow_0_r. lia.
  - lia.
  - rewrite iter_xO_value. replace (e - e') with (Zpos d) by lia.
    reflexivity.
Qed.

(** Canonical binary64 numbers: at most 53 digits, and exactly 53 above
    the smallest exponent. *)
Lemma bounded_digits (m : positive) (e : Z) :
  bounded prec emax m e = true ->
  Zpos (digits2_pos m) <= 53
  /\ -1074 <= e
  /\ (-1074 < e -> Zpos (digits2_pos m) = 53).
Proof.
  unfold bounded, canonical_mantissa, fexp, SpecFloat.emin, prec, emax.
  intros H. apply andb_prop in H. destruct H as [H _].
  apply Z.eqb_eq in H. lia.
Qed.

Lemma finite_lt_by_exponent (m1 m2 : positive) (e1 e2 : Z) :
  bounded prec emax m1 e1 = true -> bounded prec emax m2 e2 = true ->
  e1 < e2 ->
  Zpos m1 * 2 ^ (e1 - Z.min e1 e2) < Zpos m2 * 2 ^ (e2 - Z.min e1 e2).
Proof.
  intros B1 B2 Hlt.
  destruct (bounded_digits _ _ B1) as (D1 & E1 & _).
  destruct (bounded_digits _ _ B2) as (_ & _ & D2).
  specialize (D2 ltac:(lia)).
  pose proof (digits2_bounds m1) as [_ U1].
  pose proof (digits2_bounds m2) as [L2 _].
  rewrite D2 in L2.
  assert (U : Zpos m1 < 2 ^ 53).
  { eapply Z.lt_le_trans; [exact U1|]. apply Z.pow_le_mono_r; lia. }
  replace (Z.min e1 e2) with e1 by lia.
  replace (e1 - e1) with 0 by lia. rewrite Z.pow_0_r, Z.mul_1_r.
  assert (P : 2 ^ 1 <= 2 ^ (e2 - e1)) by (apply Z.pow_le_mono_r; lia).
  change (2 ^ 1) with 2 in P. change (2 ^ (53 - 1)) with 4503599627370496 in L2.
  change (2 ^ 53) with 9007199254740992 in U.
  nia.
Qed.

(** The aligned integer of a finite number, as the subtraction builds it. *)
Definition aligned (s : bool) (m : positive) (e ez : Z) : Z :=
  cond_Zopp s (Zpos (fst (shl_align m e ez))).

Lemma aligned_le (sx sy : bool) (mx my : positive) (ex ey : Z) :
  bounded prec emax mx ex = true -> bounded prec emax my ey = true ->
  SFleb (S754_finite sx mx ex) (S754_finite sy my ey) = true ->
  aligned sx mx ex (Z.min ey ex) <= aligned sy my ey (Z.min ey ex).
Proof.
  intros Bx By. unfold aligned.
  rewrite !shl_align_value by lia.
  assert (Px : 0 < Zpos mx * 2 ^ (ex - Z.min ey ex))
    by (apply Z.mul_pos_pos; [lia | apply Z.pow_pos_nonneg; lia]).
  assert (Py : 0 < Zpos my * 2 ^ (ey - Z.min ey ex))
    by (apply Z.mul_pos_pos; [lia | apply Z.pow_pos_nonneg; lia]).
  unfold SFleb, SFcompare.
  destruct sx, sy; cbv beta iota delta [cond_Zopp];
    try (intros _; lia); try discriminate.
  - (* both negative *)
    destruct (Z.compare_spec ex ey) as [E|E|E]; try discriminate.
    + subst ey. rewrite Z.min_id, Z.sub_diag, Z.pow_0_r, !Z.mul_1_r.
      destruct (Pos.compare_cont Eq mx my) eqn:C; cbv beta iota delta [CompOpp];
        try discriminate; intros _.
      * apply Pos.compare_eq in C; subst; lia.
      * apply Pos.compare_gt_iff in C. lia.
    + intros _. pose proof (finite_lt_by_exponent _ _ _ _ By Bx E). lia.
  - (* both positive *)
    destruct (Z.compare_spec ex ey) as [E|E|E]; try discriminate.
    + subst ey. rewrite Z.min_id, Z.sub_diag, Z.pow_0_r, !Z.mul_1_r.
      destruct (Pos.compare_cont Eq mx my) eqn:C;
        try discriminate; intros _.
      * apply Pos.compare_eq in C; subst; lia.
      * change (mx < my)%positive in C. lia.
    + intros _. pose proof (finite_lt_by_exponent _ _ _ _ Bx By E) as F.
      rewrite (Z.min_comm ey ex). lia.
Qed.

Lemma binary_round_aux_sign (s : bool) (m e : Z) (l : location) :
  match binary_round_aux prec emax s m e l with
  | S754_finite s' _ _ | S754_infinity s' | S754_zero s' => s' = s
  | S754_nan => True
  end.
Proof.
  unfold binary_round_aux.
  destruct (shr_fexp prec emax m e l) as [mrs' e'].
  destruct (shr_fexp prec emax _ e' loc_Exact) as [mrs'' e''].
  destruct (shr_m mrs''); [reflexivity | | exact I].
  destruct (e'' <=? emax - prec); reflexivity.
Qed.

Lemma binary_normalize_nonneg (z ez : Z) :
  0 <= z -> nonneg_SF (binary_normalize prec emax z ez false).
Proof.
  intros H. unfold binary_normalize.
  destruct z as [|p|p]; [exact I | | lia].
  unfold binary_round.
  destruct (shl_align p ez _) as [mz ez'].
  pose proof (binary_round_aux_sign false (Zpos mz) ez' loc_Exact) as S.
  destruct (binary_round_aux prec emax false (Zpos mz) ez' loc_Exact);
    simpl; subst; exact I.
Qed.

(** Subtracting a number from one that is not below it gives a number that
    is not below zero. *)
Lemma SFsub_nonneg (x y : spec_float) :
  valid_binary x = true -> valid_binary y = true ->
  SFleb x y = true -> nonneg_SF (SFsub prec emax y x).
Proof.
  intros Vx Vy Hle.
  destruct x as [sx|sx| |sx mx ex], y as [sy|sy| |sy my ey];
    try discriminate Hle;
    try (destruct sx, sy; try discriminate Hle; exact I);
    try (destruct sx; try discriminate Hle; exact I);
    try (destruct sy; try discriminate Hle; exact I).
  simpl in Vx, Vy. unfold SFsub.
  apply binary_normalize_nonneg.
  pose proof (aligned_le _ _ _ _ _ _ Vx Vy Hle) as A. unfold aligned in A.
  lia.
Qed.

Lemma SFmul_nonneg (x y : spec_float) :
  nonneg_SF x -> nonneg_SF y -> nonneg_SF (SFmul prec emax x y).
Proof.
  intros Hx Hy.
  destruct x as [sx|sx| |sx mx ex], y as [sy|sy| |sy my ey]; simpl;
    try exact I;
    try (destruct sx; try contradiction); try (destruct sy; try contradiction);
    try exact I.
  pose proof (binary_round_aux_sign false (Zpos (mx * my)) (ex + ey) loc_Exact)
    as S. simpl xorb.
  destruct (binary_round_aux prec emax false (Zpos (mx * my)) (ex + ey)
              loc_Exact); simpl; subst; exact I.
Qed.

End Binary64.

(* ================================================================= *)
(** ** The reported latency *)

(** The floor of a finite float, as the specification words the latency:
    the largest integer not above it. *)
Definition floor_of_float (f : float) : option Z :=
  match Prim2SF f with
  | S754_zero _ => Some 0
  | S754_finite s m e =>
      let sm := cond_Zopp s (Zpos m) in
      Some (if 0 <=? e then sm * 2 ^ e else sm / 2 ^ (- e))
  | _ => None
  end.

(** A wall clock that is set back one second between two readings. *)
Definition rewound : outside :=
  {| environ := [];
     clock := fun n => match n with O => 100%float | _ => 99%float end;
     random_source := fun _ => 0.5%float;
     trace_id_source := fun n => Z.of_nat n + 1;
     telemetry_fault := fun _ => None;
     long_sleep_fault := fun _ => None;
     builtin_rules := fun _ _ _ => Aborted 404 |}.

Lemma elapsed_nonneg (t0 now : float) :
  (t0 <=? now)%float = true ->
  nonneg_SF (Prim2SF ((now - t0) * 1000)%float).
Proof.
  rewrite leb_spec. intros H. rewrite mul_spec, sub_spec.
  apply SFmul_nonneg.
  - apply SFsub_nonneg; [apply Prim2SF_valid | apply Prim2SF_valid | exact H].
  - vm_compute. exact I.
Qed.

Lemma int_of_float_nonneg (f : float) (d : Z) :
  nonneg_SF (Prim2SF f) -> Py.int_of_float f = Ret d ->
  0 <= d /\ floor_of_float f = Some d.
Proof.
  unfold Py.int_of_float, floor_of_float.
  destruct (Prim2SF f) as [s|s| |s m e]; try discriminate.
  - intros _ [= <-]. split; [lia | reflexivity].
  - destruct s; [contradiction|].
    pose proof (Pos2Z.is_pos m) as Hz.
    set (z := Zpos m) in *. clearbody z. unfold cond_Zopp.
    intros _ [= <-].
    destruct (0 <=? e) eqn:He.
    + split; [|reflexivity].
      apply Z.mul_nonneg_nonneg; [lia | apply Z.pow_nonneg; lia].
    + apply Z.leb_gt in He.
      assert (P : 0 < 2 ^ (- e)) by (apply Z.pow_pos_nonneg; lia).
      rewrite Z.quot_div_nonneg by lia.
      split; [apply Z.div_pos; lia | reflexivity].
Qed.

(** C8, as the code has it.  The start timestamp is the wall-clock reading
    [time.time()] taken by the [before_request] hook.  The latency put in the
    histogram and in the log record (the counter carries path, method and
    status only) is the elapsed time in milliseconds, computed in binary64
    and cut to an integer toward zero.  When the clock did not go back since
    the start, that integer is the floor of the elapsed milliseconds and is
    not negative. *)
Theorem latency_truncated_elapsed :
  forall (w : world) (resp : response) (t0 : float) (d : Z),
    no_faults (out w) ->
    _start (current_request w) = Some t0 ->
    let now := clock (out w) (clock_reads w) in
    Py.int_of_float ((now - t0) * 1000)%float = Ret d ->
    _start (current_request (snd (_start_timer w))) = Some now
    /\ events (snd (_after resp w))
       = events w
         ++ [CounterAdd "requests_total" 1
               [("path", VStr (path (current_request w)));
                ("method", VStr (method (current_request w)));
                ("status", VStr (Py.str_of_int (status_code resp)))];
             HistogramRecord "request_latency_ms" d
               [("path", VStr (path (current_request w)));
                ("method", VStr (method (current_request w)))];
             LogLine
               [("event", VStr "request");
                ("service", VStr (SERVICE_NAME (out w)));
                ("env", VStr (ENV (out w)));
                ("path", VStr (path (current_request w)));
                ("method", VStr (method (current_request w)));
                ("status", VInt (status_code resp));
                ("latency_ms", VInt d);
                ("trace_id", VStr (Py.hex (active_trace_id w)))]]
    /\ ((t0 <=? now)%float = true ->
        0 <= d /\ floor_of_float ((now - t0) * 1000)%float = Some d).
Proof.
  intros w resp t0 d Hn Hs now Hd.
  split; [reflexivity | split].
  - assert (Hel : Py.int_of_float (elapsed w) = Ret d)
      by (unfold elapsed; rewrite Hs; exact Hd).
    rewrite (after_ok resp w d Hn Hel). reflexivity.
  - intros Hle. apply int_of_float_nonneg; [|exact Hd].
    now apply elapsed_nonneg.
Qed.

Lemma latency_truncated_elapsed_witness :
  let w := snd (_start_timer (Flask.push (get "/health" []) (boot calm))) in
  let resp := json_response [("ok", VBool true)] 200 in
  let now := clock (out w) (clock_reads w) in
  _start (current_request (snd (_start_timer w))) = Some now
  /\ events (snd (_after resp w))
     = events w
       ++ [CounterAdd "requests_total" 1
             [("path", VStr (path (current_request w)));
              ("method", VStr (method (current_request w)));
              ("status", VStr (Py.str_of_int (status_code resp)))];
           HistogramRecord "request_latency_ms" 250
             [("path", VStr (path (current_request w)));
              ("method", VStr (method (current_request w)))];
           LogLine
             [("event", VStr "request");
              ("service", VStr (SERVICE_NAME (out w)));
              ("env", VStr (ENV (out w)));
              ("path", VStr (path (current_request w)));
              ("method", VStr (method (current_request w)));
              ("status", VInt (status_code resp));
              ("latency_ms", VInt 250);
              ("trace_id", VStr (Py.hex (active_trace_id w)))]]
  /\ ((100 <=? now)%float = true ->
      0 <= 250 /\ floor_of_float ((now - 100) * 1000)%float = Some 250).
Proof.
  exact (latency_truncated_elapsed
           (snd (_start_timer (Flask.push (get "/health" []) (boot calm))))
           (json_response [("ok", VBool true)] 200) 100%float 250
           calm_no_faults eq_refl eq_refl).
Defined.

(** C8, as stated, fails: when the wall clock is set back one second
    during a request, the histogram and the log record carry a latency of
    minus one thousand milliseconds; and the counter carries no latency. *)
Lemma negative_latency_reported :
  (clock rewound 1 <? clock rewound 0)%float = true
  /\ telemetry_events
       (events (snd (Flask.serve (get "/health" []) (boot rewound))))
     = [CounterAdd "requests_total" 1
          [("path", VStr "/health"); ("method", VStr "GET");
           ("status", VStr "200")];
        HistogramRecord "request_latency_ms" (-1000)
          [("path", VStr "/health"); ("method", VStr "GET")];
        LogLine
          [("event", VStr "request"); ("service", VStr "observability-lab");
           ("env", VStr "dev"); ("path", VStr "/health");
           ("method", VStr "GET"); ("status", VInt 200);
           ("latency_ms", VInt (-1000)); ("trace_id", VStr "0x0")]]
  /\ -1000 < 0.
Proof. vm_compute. repeat split; reflexivity. Qed.

(* ================================================================= *)
(** * Further properties of the service *)

(* ----------------------------------------------------------------- *)
(** ** What the completion hook emits, step by step *)

(** The sleeps among the events, in order. *)
Definition sleeps (evs : list event) : list float :=
  flat_map (fun e => match e with Sleep s => [s] | _ => [] end) evs.

(** How many of the hook's three emissions happen before a telemetry call
    raises: the counter comes first, then the histogram, then (after the
    trace id is read) the log line. *)
Definition emitted (o : outside) : nat :=
  match telemetry_fault o CounterAddCall with
  | Some _ => 0
  | None =>
      match telemetry_fault o HistogramRecordCall with
      | Some _ => 1
      | None =>
          match telemetry_fault o CurrentSpanCall,
                telemetry_fault o LogCall with
          | None, None => 3
          | _, _ => 2
          end
      end
  end.

(** The events the hook adds in world [w]. *)
Definition completion_events (w : world) (resp : response) : list event :=
  match Py.int_of_float (elapsed w) with
  | Ret d => firstn (emitted (out w)) (report w resp d)
  | Raise _ => []
  end.

Lemma after_world (resp : response) (w : world) :
  snd (_after resp w)
  = set_events (events w ++ completion_events w resp)
      (tick_clock (tick_clock w)).
Proof.
  unfold completion_events, emitted, elapsed, report.
  after_cases; rewrite <- ?app_assoc, ?app_nil_r; reflexivity.
Qed.

Lemma sleeps_app (a b : list event) : sleeps (a ++ b) = sleeps a ++ sleeps b.
Proof. unfold sleeps. apply flat_map_app. Qed.

Lemma log_lines_app (a b : list event) :
  log_lines (a ++ b) = log_lines a ++ log_lines b.
Proof. unfold log_lines. apply flat_map_app. Qed.

Lemma completion_events_sleeps (w : world) (resp : response) :
  sleeps (completion_events w resp) = [].
Proof.
  unfold completion_events. destruct (Py.int_of_float (elapsed w)) as [d|e];
    [|reflexivity].
  destruct (emitted (out w)) as [|[|[|k]]]; simpl; rewrite ?firstn_nil;
    reflexivity.
Qed.

Lemma completion_events_loud (w : world) (resp : response) :
  telemetry_events (completion_events w resp) = completion_events w resp.
Proof.
  unfold completion_events. destruct (Py.int_of_float (elapsed w)) as [d|e];
    [|reflexivity].
  destruct (emitted (out w)) as [|[|[|k]]]; simpl; rewrite ?firstn_nil;
    reflexivity.
Qed.

(* ----------------------------------------------------------------- *)
(** ** What the views do to the world *)

(** A sleep is waited out, or it raises and nothing happened. *)
Lemma time_sleep_cases (s : float) (w : world) :
  time_sleep s w = (Ret tt, set_events (events w ++ [Sleep s]) w)
  \/ (exists e, time_sleep s w = (Raise e, w)).
Proof.
  unfold time_sleep.
  repeat match goal with
         | |- context [if ?b then _ else _] => destruct b
         end; try (left; reflexivity); try (right; eexists; reflexivity).
  unfold bind, gets; simpl.
  destruct (long_sleep_fault (out w) s);
    [right; eexists; reflexivity | left; reflexivity].
Qed.

Definition hello_response : response :=
  json_response [("message", VStr "hello, datadog")] 200.

Lemma hello_cases (w : world) :
  hello w = (Ret hello_response, w)
  \/ (exists s, hello w
                = (Ret hello_response, set_events (events w ++ [Sleep s]) w))
  \/ (exists e, hello w = (Raise e, w)).
Proof.
  unfold hello, bind, gets, lift. simpl.
  destruct (Py.int_of_str _) as [d|e]; [|right; right; eexists; reflexivity].
  destruct (0 <? d); [|left; reflexivity].
  destruct (Py.truediv d 1000) as [s|e]; [|right; right; eexists; reflexivity].
  destruct (time_sleep_cases s w) as [-> | [e ->]];
    [right; left; eexists; reflexivity | right; right; eexists; reflexivity].
Qed.

Lemma sometimes_errors_cases (w : world) :
  (exists e, sometimes_errors w = (Raise e, w))
  \/ (exists r, sometimes_errors w = (Ret r, tick_random w)).
Proof.
  unfold sometimes_errors, bind, gets, lift, random_random. simpl.
  destruct (Py.float_of_str _) as [rate|e]; [|left; eexists; reflexivity].
  right. destruct (_ <? rate)%float; eexists; reflexivity.
Qed.

(** The compute function [/slow] picks. *)
Definition compute (cache_on : bool) : Z -> M Z :=
  if cache_on then expensive_compute_cached else expensive_compute_uncached.

Lemma slow_cases (w : world) :
  let cache_on :=
    String.eqb (args_get (args (current_request w)) "cache" "0") "1" in
  match Py.int_of_str (args_get (args (current_request w)) "x" "7") with
  | Raise e => slow w = (Raise e, w)
  | Ret x =>
      slow w
      = (match fst (compute cache_on x (open_span "slow_work" w)) with
         | Ret res =>
             if Py.exceeds_str_digits res
             then Raise Py.digit_limit_error
             else Ret (json_response
                         [("result", VInt res); ("cache", VBool cache_on)] 200)
         | Raise e => Raise e
         end,
         close_span "slow_work"
           (snd (compute cache_on x (open_span "slow_work" w))))
  end.
Proof.
  intros cache_on.
  destruct (Py.int_of_str _) as [x|e] eqn:Hx;
    unfold slow, bind at 1 2, gets, lift; rewrite Hx; [|reflexivity].
  unfold start_as_current_span, bind. fold cache_on. unfold compute.
  destruct cache_on.
  - destruct (expensive_compute_cached x (open_span "slow_work" w))
      as [[res|e] w']; [cbv beta iota; now rewrite jsonify_slow | reflexivity].
  - change (expensive_compute_uncached x (open_span "slow_work" w))
      with (Ret (x * x),
            snd (expensive_compute_uncached x (open_span "slow_work" w))).
    cbv beta iota. now rewrite jsonify_slow.
Qed.

Lemma match_rule_cases (p : string) :
  (p = "/health" /\ Flask.match_rule Flask.url_map p = Some health)
  \/ (p = "/hello" /\ Flask.match_rule Flask.url_map p = Some hello)
  \/ (p = "/slow" /\ Flask.match_rule Flask.url_map p = Some slow)
  \/ (p = "/error"
      /\ Flask.match_rule Flask.url_map p = Some sometimes_errors)
  \/ (~ In p ["/health"; "/hello"; "/slow"; "/error"]
      /\ Flask.match_rule Flask.url_map p = None).
Proof.
  unfold Flask.url_map. cbn [Flask.match_rule].
  destruct (String.eqb_spec "/health" p) as [E|N1]; [left; now split|].
  destruct (String.eqb_spec "/hello" p) as [E|N2]; [right; left; now split|].
  destruct (String.eqb_spec "/slow" p) as [E|N3];
    [right; right; left; now split|].
  destruct (String.eqb_spec "/error" p) as [E|N4];
    [right; right; right; left; now split|].
  repeat right. split; [|reflexivity].
  simpl. intros [H|[H|[H|[H|[]]]]]; congruence.
Qed.

(** The methods a rule registered with [app.get] hands to its view. *)
Definition runs_view (m : string) : bool :=
  String.eqb m "GET" || String.eqb m "HEAD".

(** Dispatch runs one of the four views on the world as it is, or Flask
    answers by itself and leaves the world alone. *)
Lemma dispatch_cases (w : world) :
  let p := path (current_request w) in
  let m := method (current_request w) in
  (runs_view m = true
   /\ ((p = "/health" /\ Flask.dispatch_request w = health w)
       \/ (p = "/hello" /\ Flask.dispatch_request w = hello w)
       \/ (p = "/slow" /\ Flask.dispatch_request w = slow w)
       \/ (p = "/error" /\ Flask.dispatch_request w = sometimes_errors w)))
  \/ (~ In p ["/health"; "/hello"; "/slow"; "/error"]
      /\ Flask.dispatch_request w
         = (Flask.builtin_outcome (builtin_rules (out w) (clock_reads w) m p),
            w))
  \/ (In p ["/health"; "/hello"; "/slow"; "/error"]
      /\ runs_view m = false
      /\ Flask.dispatch_request w
         = (if String.eqb m "OPTIONS"
            then Ret {| status_code := 200; data := NoBody |}
            else Raise (HTTPException 405), w)).
Proof.
  intros p m. unfold Flask.dispatch_request, bind, gets. cbv beta iota.
  fold p m. fold (runs_view m).
  destruct (match_rule_cases p) as [[E H]|[[E H]|[[E H]|[[E H]|[N H]]]]];
    rewrite H; [| | | |right; left; now split];
    (destruct (runs_view m) eqn:Hm;
     [left; split; [reflexivity|]; tauto
     |right; right; split; [rewrite E; simpl; tauto|]; split; [reflexivity|];
      destruct (String.eqb m "OPTIONS"); reflexivity]).
Qed.

Lemma compute_frame (cache_on : bool) (x : Z) (w : world) :
  let w' := snd (compute cache_on x w) in
  span_stack w' = span_stack w
  /\ log_lines (events w') = log_lines (events w)
  /\ (sleeps (events w') = sleeps (events w)
      \/ sleeps (events w') = sleeps (events w) ++ [0.8%float])
  /\ (cache_on = false -> memo w' = memo w).
Proof.
  destruct cache_on; simpl.
  - destruct (functools.cache_get x (memo w)) as [r|] eqn:Hget.
    + rewrite (cached_hit _ _ _ Hget). simpl.
      repeat split; [now left | discriminate].
    + rewrite (cached_miss _ _ Hget). simpl.
      rewrite log_lines_app, sleeps_app, app_nil_r.
      repeat split; [now right | discriminate].
  - rewrite log_lines_app, sleeps_app, app_nil_r. repeat split. now right.
Qed.

Lemma open_span_frame (name : string) (w : world) :
  tl (span_stack (open_span name w)) = span_stack w
  /\ log_lines (events (open_span name w)) = log_lines (events w)
  /\ sleeps (events (open_span name w)) = sleeps (events w)
  /\ memo (open_span name w) = memo w.
Proof.
  unfold open_span; simpl.
  rewrite log_lines_app, sleeps_app, !app_nil_r. repeat split.
Qed.

Lemma close_span_frame (name : string) (w : world) :
  span_stack (close_span name w) = tl (span_stack w)
  /\ log_lines (events (close_span name w)) = log_lines (events w)
  /\ sleeps (events (close_span name w)) = sleeps (events w)
  /\ memo (close_span name w) = memo w.
Proof.
  unfold close_span; simpl.
  rewrite log_lines_app, sleeps_app, !app_nil_r. repeat split.
Qed.

(** A view leaves the span stack and the log lines as they were and sleeps
    at most once; it leaves the memo table as it was unless it is [/slow],
    run by its view, with the [cache] parameter [1]. *)
Lemma dispatch_world (w : world) :
  let w' := snd (Flask.dispatch_request w) in
  span_stack w' = span_stack w
  /\ log_lines (events w') = log_lines (events w)
  /\ (sleeps (events w') = sleeps (events w)
      \/ exists s, sleeps (events w') = sleeps (events w) ++ [s])
  /\ (~ (path (current_request w) = "/slow"
         /\ args_get (args (current_request w)) "cache" "0" = "1"
         /\ runs_view (method (current_request w)) = true) ->
      memo w' = memo w).
Proof.
  destruct (dispatch_cases w)
    as [[Hrun [[E H]|[[E H]|[[E H]|[E H]]]]]|[[_ H]|(_ & _ & H)]];
    cbv zeta; rewrite H; try (simpl; tauto).
  - destruct (hello_cases w) as [->|[[s ->]|[e ->]]]; simpl;
      rewrite ?log_lines_app, ?sleeps_app, ?app_nil_r; try tauto.
    repeat split. right. now exists s.
  - pose proof (slow_cases w) as Hs. cbv zeta in Hs.
    destruct (Py.int_of_str _) as [x|e]; rewrite Hs; [|simpl; tauto].
    simpl snd.
    destruct (compute_frame
                (String.eqb (args_get (args (current_request w)) "cache" "0")
                   "1") x (open_span "slow_work" w))
      as (Hst & Hlog & Hsl & Hmemo).
    cbv zeta in Hst, Hlog, Hsl, Hmemo.
    destruct (open_span_frame "slow_work" w) as (O1 & O2 & O3 & O4).
    match goal with |- context [close_span "slow_work" ?w'] =>
      destruct (close_span_frame "slow_work" w') as (C1 & C2 & C3 & C4)
    end.
    rewrite C1, C2, C3, C4, Hst, Hlog, O1, O2.
    repeat split.
    + destruct Hsl as [Hsl|Hsl]; rewrite Hsl, O3;
        [now left | right; eexists; reflexivity].
    + intros Hne. rewrite Hmemo, O4; [reflexivity|].
      apply String.eqb_neq. intros E1. apply Hne. now repeat split.
  - destruct (sometimes_errors_cases w) as [[e ->]|[r ->]]; simpl; tauto.
Qed.

Lemma log_lines_loud (evs : list event) :
  log_lines (telemetry_events evs) = log_lines evs.
Proof.
  induction evs as [|e evs IH]; [reflexivity|].
  unfold telemetry_events in *. simpl.
  destruct e; simpl; rewrite ?IH; reflexivity.
Qed.

(** One request, as a change of the world: after dispatch, the completion
    hook reads the clock twice and appends its events. *)
Lemma serve_world (rq : request) (w : world) :
  let w2 := snd (Flask.dispatch_request (snd (_start_timer (Flask.push rq w))))
  in
  snd (Flask.serve rq w)
  = set_events (events w2 ++ completion_events w2 (handler_response rq w))
      (tick_clock (tick_clock w2)).
Proof.
  intros w2. rewrite serve_eq. cbv zeta. fold w2.
  fold (handler_response rq w). apply after_world.
Qed.

Lemma serve_frame (rq : request) (w : world) :
  let w2 := snd (Flask.dispatch_request (snd (_start_timer (Flask.push rq w))))
  in
  out (snd (Flask.serve rq w)) = out w
  /\ span_stack (snd (Flask.serve rq w)) = span_stack w
  /\ span_stack w2 = span_stack w
  /\ telemetry_events (events (snd (Flask.serve rq w)))
     = telemetry_events (events w)
       ++ completion_events w2 (handler_response rq w)
  /\ (sleeps (events (snd (Flask.serve rq w))) = sleeps (events w)
      \/ exists s,
          sleeps (events (snd (Flask.serve rq w))) = sleeps (events w) ++ [s])
  /\ (~ (path rq = "/slow" /\ args_get (args rq) "cache" "0" = "1"
         /\ runs_view (method rq) = true) ->
      memo (snd (Flask.serve rq w)) = memo w).
Proof.
  intros w2. rewrite (serve_world rq w). fold w2. simpl.
  destruct (dispatch_frame rq w) as (Hout & _ & _ & Htel). fold w2 in Htel.
  destruct (dispatch_world (snd (_start_timer (Flask.push rq w))))
    as (Hst & _ & Hsl & Hmemo).
  fold w2 in Hst, Hsl, Hmemo, Hout. simpl in Hst, Hsl, Hmemo.
  rewrite sleeps_app, completion_events_sleeps, app_nil_r.
  unfold telemetry_events at 1. rewrite filter_app.
  fold (telemetry_events (events w2)).
  fold (telemetry_events (completion_events w2 (handler_response rq w))).
  rewrite completion_events_loud, Htel. repeat split; assumption.
Qed.

(* ----------------------------------------------------------------- *)
(** ** Telemetry of a request, whatever fails *)

(** X1.  Whatever the handler does and whichever telemetry calls raise, a
    request adds to the metric and log events a prefix of: one counter
    increment, one histogram record, one log line, in this order and with the
    path and method of the request and the status of the response.  So no
    request is counted or logged twice, and a log line is there only when
    both metrics were fed. *)
Theorem request_telemetry_in_order :
  forall (w : world) (rq : request),
    exists (k : nat) (d : Z),
      telemetry_events (events (snd (Flask.serve rq w)))
      = telemetry_events (events w)
        ++ firstn k
             [CounterAdd "requests_total" 1
                [("path", VStr (path rq)); ("method", VStr (method rq));
                 ("status",
                  VStr (Py.str_of_int
                          (status_code (handler_response rq w))))];
              HistogramRecord "request_latency_ms" d
                [("path", VStr (path rq)); ("method", VStr (method rq))];
              LogLine
                [("event", VStr "request");
                 ("service", VStr (SERVICE_NAME (out w)));
                 ("env", VStr (ENV (out w)));
                 ("path", VStr (path rq)); ("method", VStr (method rq));
                 ("status", VInt (status_code (handler_response rq w)));
                 ("latency_ms", VInt d);
                 ("trace_id", VStr (Py.hex (active_trace_id w)))]]
      /\ (List.length (log_lines (events (snd (Flask.serve rq w))))
          <= List.length (log_lines (events w)) + 1)%nat.
Proof.
  intros w rq.
  destruct (serve_frame rq w) as (_ & _ & Hst & Htel & _).
  destruct (dispatch_frame rq w) as (Hout & _ & Hrq & _).
  cbv zeta in *.
  set (w2 := snd (Flask.dispatch_request
                    (snd (_start_timer (Flask.push rq w))))) in *.
  assert (Hk : exists (k : nat) (d : Z),
             completion_events w2 (handler_response rq w)
             = firstn k (report w2 (handler_response rq w) d)).
  { unfold completion_events.
    destruct (Py.int_of_float (elapsed w2)) as [d|e].
    - exists (emitted (out w2)), d. reflexivity.
    - exists 0%nat, 0. reflexivity. }
  destruct Hk as (k & d & Hk). exists k, d.
  rewrite Hk in Htel. unfold report, active_trace_id in Htel.
  rewrite Hrq, Hout, Hst in Htel. simpl in Htel.
  split; [exact Htel|].
  rewrite <- (log_lines_loud (events (snd (Flask.serve rq w)))), Htel.
  rewrite log_lines_app, log_lines_loud, length_app.
  apply Nat.add_le_mono_l.
  destruct k as [|[|[|k]]]; simpl; rewrite ?firstn_nil; simpl; lia.
Qed.

(** The shape of a log line whose trace id is zero. *)
Definition untraced_line (o : outside) (p : dict) : Prop :=
  exists (pth m : string) (st d : Z),
    p = [("event", VStr "request"); ("service", VStr (SERVICE_NAME o));
         ("env", VStr (ENV o)); ("path", VStr pth); ("method", VStr m);
         ("status", VInt st); ("latency_ms", VInt d);
         ("trace_id", VStr "0x0")].

Lemma serve_untraced (o : outside) (rq : request) (w : world) :
  out w = o -> span_stack w = [] ->
  (forall p, In p (log_lines (events w)) -> untraced_line o p) ->
  out (snd (Flask.serve rq w)) = o
  /\ span_stack (snd (Flask.serve rq w)) = []
  /\ (forall p, In p (log_lines (events (snd (Flask.serve rq w)))) ->
                untraced_line o p).
Proof.
  intros Ho Hs Hl.
  destruct (serve_frame rq w) as (Hout & Hst & Hst2 & Htel & _).
  cbv zeta in *.
  set (w2 := snd (Flask.dispatch_request
                    (snd (_start_timer (Flask.push rq w))))) in *.
  split; [congruence | split; [congruence|]].
  intros p Hp.
  rewrite <- log_lines_loud, Htel, log_lines_app, log_lines_loud in Hp.
  apply in_app_iff in Hp. destruct Hp as [Hp|Hp]; [now apply Hl|].
  destruct (dispatch_frame rq w) as (Hout2 & _ & _ & _). fold w2 in Hout2.
  unfold completion_events in Hp.
  destruct (Py.int_of_float (elapsed w2)) as [d|e]; [|destruct Hp].
  unfold report, active_trace_id in Hp. rewrite Hst2, Hs, Hout2, Ho in Hp.
  destruct (emitted o) as [|[|[|k]]]; simpl in Hp;
    rewrite ?firstn_nil in Hp; simpl in Hp; try contradiction.
  destruct Hp as [<-|[]]. do 4 eexists. reflexivity.
Qed.

(** X2.  No span is active when the completion hook runs (the span of
    [/slow] has ended by then), so every log line of the service, after any
    sequence of requests, carries the trace id [0x0]. *)
Theorem log_lines_untraced :
  forall (o : outside) (rqs : list request) (p : dict),
    In p (log_lines (events (serve_all rqs (boot o)))) ->
    untraced_line o p /\ dict_get p "trace_id" = Some (VStr "0x0").
Proof.
  intros o rqs p Hp.
  assert (H : untraced_line o p).
  { revert Hp.
    assert (Hinv : out (boot o) = o /\ span_stack (boot o) = []
                   /\ (forall q, In q (log_lines (events (boot o))) ->
                                 untraced_line o q))
      by (repeat split; intros q []).
    revert Hinv. generalize (boot o) as w.
    induction rqs as [|rq rqs IH]; intros w (Ho & Hs & Hl); simpl.
    - apply Hl.
    - apply IH. now apply serve_untraced. }
  split; [exact H|].
  destruct H as (pth & m & st & d & ->). reflexivity.
Qed.

Lemma sample_log_line :
  In [("event", VStr "request"); ("service", VStr "observability-lab");
      ("env", VStr "dev"); ("path", VStr "/slow"); ("method", VStr "GET");
      ("status", VInt 200); ("latency_ms", VInt 250);
      ("trace_id", VStr "0x0")]
     (log_lines (events (serve_all [get "/slow" [("x", "5")]] (boot calm)))).
Proof. vm_compute. left. reflexivity. Qed.

Lemma log_lines_untraced_witness :
  untraced_line calm
    [("event", VStr "request"); ("service", VStr "observability-lab");
     ("env", VStr "dev"); ("path", VStr "/slow"); ("method", VStr "GET");
     ("status", VInt 200); ("latency_ms", VInt 250);
     ("trace_id", VStr "0x0")]
  /\ dict_get
       [("event", VStr "request"); ("service", VStr "observability-lab");
        ("env", VStr "dev"); ("path", VStr "/slow"); ("method", VStr "GET");
        ("status", VInt 200); ("latency_ms", VInt 250);
        ("trace_id", VStr "0x0")] "trace_id"
     = Some (VStr "0x0").
Proof.
  exact (log_lines_untraced calm [get "/slow" [("x", "5")]] _
           sample_log_line).
Defined.

(* ----------------------------------------------------------------- *)
(** ** Which requests touch what *)

(** X3.  The memo table changes only under a request to [/slow] that is
    run by the view and whose [cache] parameter is [1]; every other request
    leaves it exactly as it was. *)
Theorem only_cached_slow_touches_memo :
  forall (w : world) (rq : request),
    ~ (path rq = "/slow" /\ args_get (args rq) "cache" "0" = "1"
       /\ runs_view (method rq) = true) ->
    memo (snd (Flask.serve rq w)) = memo w.
Proof.
  intros w rq H. now apply (serve_frame rq w).
Qed.

Lemma only_cached_slow_touches_memo_witness :
  memo (snd (Flask.serve (get "/slow" [("x", "5"); ("cache", "yes")])
               (boot calm)))
  = memo (boot calm).
Proof.
  refine (only_cached_slow_touches_memo (boot calm)
            (get "/slow" [("x", "5"); ("cache", "yes")]) _).
  simpl. intros (_ & H & _). discriminate H.
Defined.

Lemma dispatch_view (w : world) (view : M response) :
  runs_view (method (current_request w)) = true ->
  Flask.match_rule Flask.url_map (path (current_request w)) = Some view ->
  Flask.dispatch_request w = view w.
Proof.
  intros Hm Hr. unfold Flask.dispatch_request, bind, gets. cbv beta iota.
  rewrite Hr. fold (runs_view (method (current_request w))).
  now rewrite Hm.
Qed.

(** X4.  [/health] answers 200 with [ok], the service name and the
    environment, whatever its parameters and the state of the service; it
    leaves the memo table alone, does not sleep and draws no random number. *)
Theorem health_always_ok :
  forall (w : world) (m : string) (a : list (string * string)),
    tame_faults (out w) ->
    runs_view m = true ->
    let rq := {| path := "/health"; method := m; args := a; _start := None |}
    in
    fst (Flask.serve rq w)
    = Ret (json_response [("ok", VBool true);
                    ("service", VStr (SERVICE_NAME (out w)));
                    ("env", VStr (ENV (out w)))] 200)
    /\ memo (snd (Flask.serve rq w)) = memo w
    /\ sleeps (events (snd (Flask.serve rq w))) = sleeps (events w)
    /\ random_draws (snd (Flask.serve rq w)) = random_draws w.
Proof.
  intros w m a Ht Hm rq.
  assert (Hd : Flask.dispatch_request (snd (_start_timer (Flask.push rq w)))
               = health (snd (_start_timer (Flask.push rq w))))
    by (apply dispatch_view; [exact Hm | reflexivity]).
  split.
  - rewrite (serve_response rq w Ht). unfold handler_response.
    rewrite Hd. reflexivity.
  - rewrite (serve_world rq w). cbv zeta. rewrite Hd. simpl.
    rewrite sleeps_app, completion_events_sleeps, app_nil_r.
    repeat split.
Qed.

Lemma health_always_ok_witness :
  let rq := {| path := "/health"; method := "HEAD"; args := [("x", "abc")];
               _start := None |} in
  fst (Flask.serve rq (boot flaky))
  = Ret (json_response [("ok", VBool true);
                  ("service", VStr (SERVICE_NAME (out (boot flaky))));
                  ("env", VStr (ENV (out (boot flaky))))] 200)
  /\ memo (snd (Flask.serve rq (boot flaky))) = memo (boot flaky)
  /\ sleeps (events (snd (Flask.serve rq (boot flaky))))
     = sleeps (events (boot flaky))
  /\ random_draws (snd (Flask.serve rq (boot flaky)))
     = random_draws (boot flaky).
Proof.
  exact (health_always_ok (boot flaky) "HEAD" [("x", "abc")] flaky_tame
           eq_refl).
Defined.

(** X5.  A request to one of the four routes with a method other than
    GET, HEAD and OPTIONS is answered 405, and a request to any other path
    gets what Flask's own rules make of it (a static file, a redirect,
    [NotFound]); neither runs a view of the application: the memo table is
    untouched, nothing sleeps, no random number is drawn and no span is
    started. *)
Theorem unrouted_requests :
  forall (w : world) (rq : request),
    tame_faults (out w) ->
    (~ In (path rq) ["/health"; "/hello"; "/slow"; "/error"]
     \/ (runs_view (method rq) = false /\ method rq <> "OPTIONS")) ->
    fst (Flask.serve rq w)
    = Ret (if existsb (String.eqb (path rq))
                ["/health"; "/hello"; "/slow"; "/error"]
           then Flask.error_response 405
           else response_of
                  (Flask.builtin_outcome
                     (builtin_rules (out w) (S (clock_reads w))
                        (method rq) (path rq))))
    /\ memo (snd (Flask.serve rq w)) = memo w
    /\ sleeps (events (snd (Flask.serve rq w))) = sleeps (events w)
    /\ random_draws (snd (Flask.serve rq w)) = random_draws w
    /\ spans_started (snd (Flask.serve rq w)) = spans_started w.
Proof.
  intros w rq Ht Hcase.
  set (w1 := snd (_start_timer (Flask.push rq w))).
  assert (Hd : Flask.dispatch_request w1
               = (if existsb (String.eqb (path rq))
                       ["/health"; "/hello"; "/slow"; "/error"]
                  then Raise (HTTPException 405)
                  else Flask.builtin_outcome
                         (builtin_rules (out w) (S (clock_reads w))
                            (method rq) (path rq)), w1)).
  { pose proof (dispatch_cases w1) as Hc. cbv zeta in Hc.
    change (path (current_request w1)) with (path rq) in Hc.
    change (method (current_request w1)) with (method rq) in Hc.
    change (out w1) with (out w) in Hc.
    change (clock_reads w1) with (S (clock_reads w)) in Hc.
    assert (Hex : In (path rq) ["/health"; "/hello"; "/slow"; "/error"] ->
                  existsb (String.eqb (path rq))
                    ["/health"; "/hello"; "/slow"; "/error"] = true).
    { intros Hin. apply existsb_exists. exists (path rq).
      split; [exact Hin | apply String.eqb_refl]. }
    assert (Hnex : ~ In (path rq) ["/health"; "/hello"; "/slow"; "/error"] ->
                   existsb (String.eqb (path rq))
                     ["/health"; "/hello"; "/slow"; "/error"] = false).
    { intros Hnin.
      destruct (existsb _ _) eqn:E; [|reflexivity].
      apply existsb_exists in E. destruct E as (q & Hq & Heq).
      apply String.eqb_eq in Heq. subst q. contradiction. }
    destruct Hc as [[Hrun Hv]|[[Hn H]|(Hin & Hrun & H)]].
    - exfalso. destruct Hcase as [Hn|[Hr _]]; [|congruence].
      apply Hn. simpl.
      destruct Hv as [[E _]|[[E _]|[[E _]|[E _]]]]; rewrite E; tauto.
    - rewrite H, (Hnex Hn). reflexivity.
    - destruct Hcase as [Hn|[_ Hopt]]; [contradiction|].
      rewrite H, (Hex Hin).
      apply String.eqb_neq in Hopt. rewrite Hopt. reflexivity. }
  split.
  - rewrite (serve_response rq w Ht). unfold handler_response.
    fold w1. rewrite Hd. cbn [fst].
    destruct (existsb _ _); reflexivity.
  - rewrite (serve_world rq w). cbv zeta. fold w1. rewrite Hd. simpl.
    rewrite sleeps_app, completion_events_sleeps, app_nil_r.
    repeat split.
Qed.

Lemma calm_tame : tame_faults calm.
Proof. intros c e H; discriminate H. Qed.

Lemma unrouted_requests_witness :
  fst (Flask.serve {| path := "/slow"; method := "POST";
                      args := [("x", "5"); ("cache", "1")];
                      _start := None |} (boot calm))
  = Ret (Flask.error_response 405).
Proof.
  refine (proj1 (unrouted_requests (boot calm)
                   {| path := "/slow"; method := "POST";
                      args := [("x", "5"); ("cache", "1")]; _start := None |}
                   calm_tame (or_intror (conj eq_refl _)))).
  discriminate.
Defined.

(* ----------------------------------------------------------------- *)
(** ** [/hello] and its delay *)

From Stdlib Require FloatLemmas Uint63.

Lemma binary_round_sign (s : bool) (m : positive) (e : Z) :
  match binary_round prec emax s m e with
  | S754_finite s' _ _ | S754_infinity s' | S754_zero s' => s' = s
  | S754_nan => True
  end.
Proof.
  unfold binary_round. destruct (shl_align m e _) as [mz ez].
  apply binary_round_aux_sign.
Qed.

(** Packing a number that is not below zero into a primitive float keeps
    it not below zero. *)
Lemma SF2Prim_nonneg (q : spec_float) :
  nonneg_SF q -> nonneg_SF (Prim2SF (SF2Prim q)).
Proof.
  destruct q as [s|s| |s m e]; simpl nonneg_SF; intros H.
  - destruct s; vm_compute; exact I.
  - destruct s; [contradiction|]. vm_compute. exact I.
  - vm_compute. exact I.
  - destruct s; [contradiction|]. unfold SF2Prim.
    rewrite FloatLemmas.Z_ldexp_spec, of_uint63_spec.
    pose proof (Uint63.to_Z_bounded (Uint63.of_Z (Zpos m))) as [Hb _].
    pose proof (binary_normalize_nonneg _ 0 Hb) as Hn.
    destruct (binary_normalize prec emax _ 0 false) as [s'|s'| |s' m' e'];
      simpl in *; try exact Hn.
    destruct s'; [contradiction|].
    pose proof (binary_round_sign false m' (e' + e)) as Hs.
    destruct (binary_round prec emax false m' (e' + e)); simpl; subst;
      exact I.
Qed.

Lemma nonneg_not_below_zero (f : float) :
  nonneg_SF (Prim2SF f) -> (f <? 0)%float = false.
Proof.
  rewrite ltb_spec. unfold SFltb.
  change (Prim2SF 0) with (S754_zero false).
  destruct (Prim2SF f) as [s|s| |s m e]; simpl; try reflexivity;
    destruct s; try contradiction; reflexivity.
Qed.

(** A number: anything but NaN. *)
Definition number_SF (x : spec_float) : Prop :=
  match x with
  | S754_nan => False
  | _ => True
  end.

Lemma shr_1_nonneg (mrs : shr_record) : 0 <= shr_m mrs -> 0 <= shr_m (shr_1 mrs).
Proof.
  destruct mrs as [m r s]. simpl.
  destruct m as [|[p|p|]|p]; simpl; lia.
Qed.

Lemma shr_fexp_nonneg (m e : Z) (l : location) :
  0 <= m -> 0 <= shr_m (fst (shr_fexp prec emax m e l)).
Proof.
  intros Hm. unfold shr_fexp, shr.
  assert (H0 : 0 <= shr_m (shr_record_of_loc m l))
    by (destruct l as [|[]]; exact Hm).
  destruct (fexp prec emax (Zdigits2 m + e) - e) as [|p|p]; simpl;
    try exact H0.
  generalize (shr_record_of_loc m l) H0. clear H0.
  induction p as [p IH|p IH|]; simpl; intros mrs H0.
  - apply IH, IH. now apply shr_1_nonneg.
  - now apply IH, IH.
  - now apply shr_1_nonneg.
Qed.

Lemma round_nearest_even_nonneg (m : Z) (l : location) :
  0 <= m -> 0 <= round_nearest_even m l.
Proof.
  intros Hm. unfold round_nearest_even.
  destruct l as [|[]]; try destruct (Z.even m); lia.
Qed.

Lemma binary_round_aux_number (s : bool) (m e : Z) (l : location) :
  0 <= m -> number_SF (binary_round_aux prec emax s m e l).
Proof.
  intros Hm. unfold binary_round_aux.
  pose proof (shr_fexp_nonneg m e l Hm) as H1.
  destruct (shr_fexp prec emax m e l) as [mrs' e']. simpl in H1.
  pose proof (shr_fexp_nonneg _ e' loc_Exact
                (round_nearest_even_nonneg _ (loc_of_shr_record mrs') H1))
    as H2.
  destruct (shr_fexp prec emax _ e' loc_Exact) as [mrs'' e'']. simpl in H2.
  destruct (shr_m mrs'') as [|p|p]; [exact I | | lia].
  destruct (e'' <=? emax - prec); exact I.
Qed.

(** Packing a number into a primitive float gives a number. *)
Lemma SF2Prim_number (q : spec_float) :
  number_SF q -> number_SF (Prim2SF (SF2Prim q)).
Proof.
  destruct q as [s|s| |s m e]; simpl number_SF; intros H.
  - destruct s; vm_compute; exact I.
  - destruct s; vm_compute; exact I.
  - contradiction.
  - unfold SF2Prim.
    assert (Hl : number_SF
                   (Prim2SF (Z.ldexp (of_uint63 (Uint63.of_Z (Zpos m))) e))).
    { rewrite FloatLemmas.Z_ldexp_spec, of_uint63_spec.
      pose proof (Uint63.to_Z_bounded (Uint63.of_Z (Zpos m))) as [Hb _].
      unfold binary_normalize.
      destruct (Uint63.to_Z (Uint63.of_Z (Z.pos m))) as [|p|p];
        [exact I | | lia].
      pose proof (binary_round_aux_number false (Z.pos p) 0 loc_Exact
                    ltac:(lia)) as Hn.
      unfold binary_round. destruct (shl_align p 0 _) as [mz ez].
      pose proof (binary_round_aux_number false (Z.pos mz) ez loc_Exact
                    ltac:(lia)) as Hn'.
      destruct (binary_round_aux prec emax false (Z.pos mz) ez loc_Exact)
        as [s'|s'| |s' m' e']; simpl; try exact I; try contradiction.
      unfold binary_round. destruct (shl_align m' (e' + e) _) as [mz' ez'].
      apply binary_round_aux_number. lia. }
    destruct s; [|exact Hl].
    rewrite opp_spec.
    destruct (Prim2SF (Z.ldexp _ e)); simpl; try exact I; contradiction.
Qed.

Lemma SFcompare_refl (x : spec_float) :
  x <> S754_nan -> SFcompare x x = Some Eq.
Proof.
  destruct x as [s|s| |s m e]; intros H; simpl; try reflexivity;
    try congruence; try (destruct s; reflexivity).
  rewrite Z.compare_refl.
  change (Pos.compare_cont Eq m m) with (Pos.compare m m).
  rewrite Pos.compare_refl. destruct s; reflexivity.
Qed.

Lemma is_nan_number (f : float) : number_SF (Prim2SF f) -> is_nan f = false.
Proof.
  intros H. unfold is_nan. rewrite eqb_spec. unfold SFeqb.
  rewrite SFcompare_refl; [reflexivity|].
  intros E. rewrite E in H. exact H.
Qed.

(** The quotient of two positive integers, when it is a float, is a number
    that is not below zero. *)
Lemma truediv_number (a b : Z) (s : float) :
  0 < a -> 0 < b -> Py.truediv a b = Ret s -> is_nan s = false.
Proof.
  intros Ha Hb. unfold Py.truediv.
  destruct a as [|pa|pa], b as [|pb|pb]; try lia.
  change (Z.pos pa <? 0) with false. change (Z.pos pb <? 0) with false.
  simpl Z.abs. simpl Z.to_pos.
  assert (Hq : number_SF (SFdiv prec emax (S754_finite false pa 0)
                            (S754_finite false pb 0))).
  { unfold SFdiv, SFdiv_core_binary.
    set (m' := match _ - _ - _ with Z0 => _ | Zpos _ => _ | Zneg _ => _ end).
    assert (Hm : 0 <= m').
    { unfold m'. destruct (_ - _ - _); [lia | | lia].
      apply Z.shiftl_nonneg. lia. }
    pose proof (Z_div_mod m' (Z.pos pb) ltac:(lia)) as Hdm.
    destruct (Z.div_eucl m' (Z.pos pb)) as [q r].
    apply binary_round_aux_number. nia. }
  destruct (SFdiv prec emax _ _) as [s'|s'| |s' m' e'] eqn:E;
    try discriminate; try contradiction; intros [= <-];
    apply is_nan_number;
    match type of E with _ = ?q => apply (SF2Prim_number q) end; exact I.
Qed.

Lemma nonneg_not_below (f g : float) :
  nonneg_SF (Prim2SF f) ->
  match Prim2SF g with S754_finite true _ _ => True | _ => False end ->
  (f <? g)%float = false.
Proof.
  rewrite ltb_spec. unfold SFltb.
  destruct (Prim2SF g) as [s|s| |s m e]; try contradiction.
  destruct s; [|contradiction]. intros H _.
  destruct (Prim2SF f) as [s'|s'| |s' m' e']; simpl; try reflexivity;
    destruct s'; try contradiction; reflexivity.
Qed.

Lemma truediv_nonneg (a b : Z) (s : float) :
  0 < a -> 0 < b -> Py.truediv a b = Ret s -> nonneg_SF (Prim2SF s).
Proof.
  intros Ha Hb. unfold Py.truediv.
  destruct a as [|pa|pa], b as [|pb|pb]; try lia.
  change (Z.pos pa <? 0) with false. change (Z.pos pb <? 0) with false.
  simpl Z.abs. simpl Z.to_pos.
  assert (Hq : nonneg_SF (SFdiv prec emax (S754_finite false pa 0)
                            (S754_finite false pb 0))).
  { unfold SFdiv.
    destruct (SFdiv_core_binary prec emax (Z.pos pa) 0 (Z.pos pb) 0)
      as [[mz ez] lz].
    pose proof (binary_round_aux_sign (xorb false false) mz ez lz) as Hs.
    destruct (binary_round_aux prec emax (xorb false false) mz ez lz);
      simpl in *; subst; exact I. }
  destruct (SFdiv prec emax _ _) as [s'|s'| |s' m' e'] eqn:E;
    try discriminate; intros [= <-]; exact (SF2Prim_nonneg _ Hq).
Qed.

(** The sleep of a length that is a number not below zero, as a positive
    delay gives it. *)
Lemma sleep_of_length (s : float) (w : world) :
  is_nan s = false -> nonneg_SF (Prim2SF s) ->
  time_sleep s w
  = if (9223372036854775808 <? s * 1000000000)%float
    then (Raise (OverflowError
                   "timestamp too large to convert to C _PyTime_t"), w)
    else if (s <=? long_sleep)%float
         then (Ret tt, set_events (events w ++ [Sleep s]) w)
         else match long_sleep_fault (out w) s with
              | Some f => (Raise (sleep_exception f), w)
              | None => (Ret tt, set_events (events w ++ [Sleep s]) w)
              end.
Proof.
  intros Hnan Hs. unfold time_sleep.
  rewrite Hnan, (nonneg_not_below_zero s Hs).
  rewrite (nonneg_not_below (s * 1000000000) (-9223372036854775808)).
  - rewrite orb_false_r.
    destruct (9223372036854775808 <? s * 1000000000)%float; [reflexivity|].
    destruct (s <=? long_sleep)%float; [reflexivity|].
    unfold bind, gets; simpl.
    destruct (long_sleep_fault (out w) s); reflexivity.
  - rewrite mul_spec. apply SFmul_nonneg; [exact Hs | vm_compute; exact I].
  - vm_compute. exact I.
Qed.

(** X6.  [/hello] sleeps only for a positive [delay_ms]: zero and negative
    delays answer at once.  A positive delay sleeps once, for
    [delay_ms / 1000] seconds, unless the length is turned down: the quotient
    is too large for a float, the length is more than 2 ^ 63 nanoseconds
    (both [OverflowError]), or it is beyond [long_sleep] and the platform
    refuses it.  A request that fails did not sleep. *)
Theorem hello_delay :
  forall (w : world) (d : Z),
    Py.int_of_str (args_get (args (current_request w)) "delay_ms" "0") = Ret d ->
    (d <= 0 -> hello w = (Ret hello_response, w))
    /\ (0 < d ->
        match Py.truediv d 1000 with
        | Ret s =>
            let slept :=
              (Ret hello_response, set_events (events w ++ [Sleep s]) w) in
            hello w
            = if (9223372036854775808 <? s * 1000000000)%float
              then (Raise (OverflowError
                             "timestamp too large to convert to C _PyTime_t"),
                    w)
              else if (s <=? long_sleep)%float then slept
                   else match long_sleep_fault (out w) s with
                        | Some f => (Raise (sleep_exception f), w)
                        | None => slept
                        end
        | Raise e =>
            hello w = (Raise e, w)
            /\ e = OverflowError
                     "integer division result too large for a float"
        end).
Proof.
  intros w d Hd. split; intros Hs.
  - unfold hello, bind, gets, lift. rewrite Hd.
    assert (E : (0 <? d) = false) by (apply Z.ltb_ge; lia).
    rewrite E. reflexivity.
  - assert (E : (0 <? d) = true) by (apply Z.ltb_lt; lia).
    destruct (Py.truediv d 1000) as [s|e] eqn:Ht.
    + cbv zeta. unfold hello, bind, gets, lift. rewrite Hd, E, Ht.
      rewrite (sleep_of_length s w
                 (truediv_number d 1000 s Hs ltac:(lia) Ht)
                 (truediv_nonneg d 1000 s Hs ltac:(lia) Ht)).
      destruct (9223372036854775808 <? s * 1000000000)%float; [reflexivity|].
      destruct (s <=? long_sleep)%float; [reflexivity|].
      destruct (long_sleep_fault (out w) s); reflexivity.
    + split.
      * unfold hello, bind, gets, lift. rewrite Hd, E, Ht. reflexivity.
      * unfold Py.truediv in Ht. destruct d as [|pd|pd]; try lia.
        destruct (SFdiv prec emax _ _); try discriminate.
        now injection Ht as <-.
Qed.

Lemma hello_delay_witness :
  hello (Flask.push (get "/hello" [("delay_ms", "50")]) (boot calm))
  = (Ret hello_response,
     set_events
       (events (Flask.push (get "/hello" [("delay_ms", "50")]) (boot calm))
        ++ [Sleep 0.05%float])
       (Flask.push (get "/hello" [("delay_ms", "50")]) (boot calm))).
Proof.
  exact (proj2 (hello_delay
                  (Flask.push (get "/hello" [("delay_ms", "50")]) (boot calm))
                  50 eq_refl) eq_refl).
Defined.

(* ----------------------------------------------------------------- *)
(** ** [log_json] and the payload it builds *)







(* ----------------------------------------------------------------- *)
(** ** The memo table over many calls *)

(** After a call, the argument is the most recently used entry. *)
Lemma cached_puts_last (w : world) (x : Z) :
  lru_wf 256 (memo w) ->
  exists (v : Z) (q : list (Z * Z)),
    fst (expensive_compute_cached x w) = Ret v
    /\ functools.queue (memo (snd (expensive_compute_cached x w)))
       = q ++ [(x, v)]
    /\ ~ In x (map fst q)
    /\ (forall k, In k (map fst q) -> In k (functools.keys (memo w)))
    /\ lru_wf 256 (memo (snd (expensive_compute_cached x w))).
Proof.
  intros Hwf.
  destruct (functools.cache_get x (memo w)) as [r|] eqn:Hget.
  - rewrite (cached_hit _ _ _ Hget). simpl.
    exists r, (functools.unlink x (functools.queue (memo w))).
    split; [reflexivity|]. split; [reflexivity|].
    split; [apply unlink_nodup, Hwf|].
    split; [intros k; apply unlink_keys | now apply hit_wf].
  - rewrite (cached_miss _ _ Hget). simpl.
    assert (Hwf' : lru_wf 256 (functools.store 256 x (x * x)
                                 (functools.miss (memo w))))
      by (apply store_wf; [lia | now apply miss_wf]).
    pose proof Hget as Hnew. apply lookup_none in Hnew.
    revert Hwf'. unfold functools.store, functools.cache_get in *.
    simpl. rewrite Hget.
    destruct (functools.full (memo w)); simpl; intros Hwf'.
    + exists (x * x), (tl (functools.queue (memo w))).
      split; [reflexivity|]. split; [reflexivity|].
      split; [|split; [|exact Hwf']].
      * intros Hin. apply Hnew.
        destruct (functools.queue (memo w)); [assumption | now right].
      * intros k Hin. unfold functools.keys.
        destruct (functools.queue (memo w)); [assumption | now right].
    + exists (x * x), (functools.queue (memo w)).
      split; [reflexivity|]. split; [reflexivity|].
      split; [exact Hnew | split; [auto | exact Hwf']].
Qed.

Lemma skipn_subset (A : Type) (n : nat) (l : list A) (a : A) :
  In a (skipn n l) -> In a l.
Proof.
  intros H. rewrite <- (firstn_skipn n l). apply in_or_app; now right.
Qed.

(** X8.  The recency window of the memo table: after a call on [x], [x]
    stays cached while up to 255 other keys, new to the table, are called,
    and the 256th of them evicts it. *)
Theorem recency_window :
  forall (w : world) (x : Z) (ks : list Z),
    lru_wf 256 (memo w) ->
    NoDup ks ->
    (forall k, In k ks -> k <> x /\ ~ In k (functools.keys (memo w))) ->
    let w' := call_all ks (snd (expensive_compute_cached x w)) in
    ((List.length ks <= 255)%nat ->
     functools.cache_get x (memo w') <> None)
    /\ ((256 <= List.length ks)%nat ->
        functools.cache_get x (memo w') = None).
Proof.
  intros w x ks Hwf Hnd Hnew w'.
  destruct (cached_puts_last w x Hwf) as (v & q & _ & Hq & Hx & Hsub & Hwf1).
  assert (Hkeys : functools.keys (memo w')
                  = lastn 256 (map fst q ++ x :: ks)).
  { unfold w'. rewrite call_all_keys; [|exact Hwf1 | exact Hnd |].
    - unfold functools.keys. rewrite Hq, keys_snoc, <- app_assoc.
      reflexivity.
    - intros k Hk. unfold functools.keys. rewrite Hq, keys_snoc.
      intros Hin. apply in_app_iff in Hin.
      destruct (Hnew k Hk) as [Hne Hnin].
      destruct Hin as [Hin|[E|[]]]; [|congruence].
      apply Hnin. now apply Hsub. }
  unfold functools.cache_get.
  split; intros Hlen.
  - intros Hnone. apply lookup_none in Hnone. apply Hnone.
    fold (functools.keys (memo w')). rewrite Hkeys. unfold lastn.
    rewrite skipn_app, length_app. simpl List.length.
    replace (List.length (map fst q) + S (List.length ks) - 256
             - List.length (map fst q))%nat with 0%nat by lia.
    apply in_or_app. right. now left.
  - apply lookup_none. fold (functools.keys (memo w')).
    rewrite Hkeys. unfold lastn.
    rewrite skipn_app, length_app. simpl List.length.
    rewrite skipn_all2 by lia. simpl app.
    destruct (List.length (map fst q) + S (List.length ks) - 256
              - List.length (map fst q))%nat as [|n] eqn:En; [lia|].
    simpl skipn. intros Hin. apply skipn_subset in Hin.
    destruct (Hnew x Hin) as [Hne _]. now apply Hne.
Qed.

Definition keys_from (a : Z) (n : nat) : list Z :=
  map (fun i => a + Z.of_nat i) (seq 0 n).

Lemma keys_from_nodup (a : Z) (n : nat) : NoDup (keys_from a n).
Proof.
  unfold keys_from.
  induction (seq_NoDup n 0) as [|i l Hi Hl IH]; simpl; constructor;
    [|assumption].
  rewrite in_map_iff. intros [j [E Hj]].
  assert (j = i) by lia. subst; contradiction.
Qed.

Lemma keys_from_fresh (n : nat) (k : Z) :
  In k (keys_from 1 n) ->
  k <> 0 /\ ~ In k (functools.keys (memo (boot calm))).
Proof.
  unfold keys_from. rewrite in_map_iff. intros [i [<- _]].
  split; [lia | intros []].
Qed.

Lemma recency_window_witness :
  let w' := call_all (keys_from 1 255)
              (snd (expensive_compute_cached 0 (boot calm))) in
  ((List.length (keys_from 1 255) <= 255)%nat ->
   functools.cache_get 0 (memo w') <> None)
  /\ ((256 <= List.length (keys_from 1 255))%nat ->
      functools.cache_get 0 (memo w') = None).
Proof.
  exact (recency_window (boot calm) 0 (keys_from 1 255)
           (proj1 (memo_inv_boot calm)) (keys_from_nodup 1 255)
           (keys_from_fresh 255)).
Defined.

(** X9.  The counters of the memo table account for every call: hits plus
    misses grow by one per call, and the function body runs (one sleep of
    0.8 s) exactly once per miss and never on a hit. *)
Theorem cache_statistics :
  forall (ks : list Z) (w : world),
    let w' := call_all ks w in
    (functools.hits (memo w') + functools.misses (memo w')
     = functools.hits (memo w) + functools.misses (memo w) + List.length ks)%nat
    /\ (functools.misses (memo w) <= functools.misses (memo w'))%nat
    /\ sleeps (events w')
       = sleeps (events w)
         ++ repeat 0.8%float
              (functools.misses (memo w') - functools.misses (memo w)).
Proof.
  induction ks as [|x ks IH]; intros w; cbv zeta.
  - simpl. rewrite Nat.sub_diag. simpl. rewrite app_nil_r.
    repeat split; lia.
  - simpl call_all.
    specialize (IH (snd (expensive_compute_cached x w))). cbv zeta in IH.
    destruct IH as (H1 & H2 & H3).
    set (w1 := snd (expensive_compute_cached x w)) in *.
    assert (Hstep :
             (functools.hits (memo w1) + functools.misses (memo w1)
              = S (functools.hits (memo w) + functools.misses (memo w)))%nat
             /\ (functools.misses (memo w) <= functools.misses (memo w1))%nat
             /\ sleeps (events w1)
                = sleeps (events w)
                  ++ repeat 0.8%float
                       (functools.misses (memo w1)
                        - functools.misses (memo w))).
    { unfold w1.
      destruct (functools.cache_get x (memo w)) as [r|] eqn:Hget.
      - rewrite (cached_hit _ _ _ Hget). simpl.
        rewrite Nat.sub_diag. simpl. rewrite app_nil_r.
        repeat split; lia.
      - rewrite (cached_miss _ _ Hget).
        cbn [snd memo set_memo events set_events].
        rewrite sleeps_app.
        assert (Hs : forall c : functools.lru_cache,
                   functools.hits (functools.store 256 x (x * x) c)
                   = functools.hits c
                   /\ functools.misses (functools.store 256 x (x * x) c)
                      = functools.misses c).
        { intros c. unfold functools.store.
          destruct (functools.cache_get x c); [now split|].
          destruct (functools.full c); now split. }
        destruct (Hs (functools.miss (memo w))) as [-> ->].
        cbn [functools.miss functools.hits functools.misses].
        replace (S (functools.misses (memo w)) - functools.misses (memo w))%nat
          with 1%nat by lia.
        split; [lia | split; [lia | reflexivity]]. }
    destruct Hstep as (Hsum & Hle & Hsl). simpl List.length.
    repeat split; try lia.
    rewrite H3, Hsl, <- app_assoc, <- repeat_app. do 2 f_equal. lia.
Qed.

(* ----------------------------------------------------------------- *)
(** ** [/error] with a rate outside [0, 1] *)

Lemma SFltb_leb_trans (x y z : spec_float) :
  SFltb x y = true -> SFleb y z = true -> SFltb x z = true.
Proof.
  unfold SFltb, SFleb, SFcompare.
  destruct x as [sx|sx| |sx mx ex], y as [sy|sy| |sy my ey],
      z as [sz|sz| |sz mz ez];
    try discriminate;
    try (destruct sx); try (destruct sy); try (destruct sz);
    try discriminate; try reflexivity;
    destruct (Z.compare_spec ex ey); try discriminate;
    destruct (Z.compare_spec ey ez); try discriminate;
    destruct (Z.compare_spec ex ez); try reflexivity; try lia;
    subst;
    repeat match goal with
           | |- context [Pos.compare_cont Eq ?a ?b] =>
               change (Pos.compare_cont Eq a b) with (Pos.compare a b);
               destruct (Pos.compare_spec a b)
           end;
    simpl; try discriminate; try reflexivity; try lia.
Qed.

Lemma errors_eq (w : world) (rate : float) :
  Py.float_of_str (args_get (args (current_request w)) "rate" "0.2")
  = Ret rate ->
  sometimes_errors w
  = (Ret (if (random_source (out w) (random_draws w) <? rate)%float
          then json_response [("error", VStr "intentional failure")] 500
          else json_response [("ok", VBool true)] 200),
     tick_random w).
Proof.
  intros Hr. unfold sometimes_errors, bind, gets, lift, random_random.
  simpl. rewrite Hr.
  destruct (_ <? rate)%float; reflexivity.
Qed.

(** X10.  A [rate] outside the unit interval is taken as it is, never
    rejected or clamped: with draws in the unit interval, a rate of one or
    more (infinity included) fails every request, and a rate of zero or less,
    or NaN, fails none. *)
Theorem error_rate_out_of_range :
  forall (w : world) (rate : float),
    Py.float_of_str (args_get (args (current_request w)) "rate" "0.2")
    = Ret rate ->
    let u := random_source (out w) (random_draws w) in
    (0 <=? u)%float = true ->
    (u <? 1)%float = true ->
    ((1 <=? rate)%float = true ->
     fst (sometimes_errors w)
     = Ret (json_response [("error", VStr "intentional failure")] 500))
    /\ ((rate <=? 0)%float = true ->
        fst (sometimes_errors w) = Ret (json_response [("ok", VBool true)] 200))
    /\ ((rate =? rate)%float = false ->
        fst (sometimes_errors w) = Ret (json_response [("ok", VBool true)] 200)).
Proof.
  intros w rate Hr u H0 H1. rewrite (errors_eq w rate Hr). fold u.
  cbn [fst]. split; [|split].
  - intros Hge.
    assert (E : (u <? rate)%float = true).
    { rewrite ltb_spec in *. rewrite leb_spec in Hge.
      eapply SFltb_leb_trans; eassumption. }
    now rewrite E.
  - intros Hle.
    assert (E : (u <? rate)%float = false).
    { destruct (u <? rate)%float eqn:Hlt; [|reflexivity].
      pose proof (ltb_zero_of_nonneg u H0) as Hz.
      rewrite ltb_spec in Hlt, Hz. rewrite leb_spec in Hle.
      rewrite (SFltb_leb_trans _ _ _ Hlt Hle) in Hz. discriminate. }
    now rewrite E.
  - intros Hnan.
    assert (E : (u <? rate)%float = false).
    { rewrite eqb_spec in Hnan. rewrite ltb_spec.
      unfold SFeqb in Hnan. unfold SFltb.
      destruct (Prim2SF rate) as [s|s| |s m e] eqn:Er;
        try (rewrite SFcompare_refl in Hnan by discriminate;
             discriminate Hnan).
      destruct (Prim2SF u); reflexivity. }
    now rewrite E.
Qed.

Lemma error_rate_out_of_range_witness :
  fst (sometimes_errors
         (Flask.push (get "/error" [("rate", "2.5")]) (boot calm)))
  = Ret (json_response [("error", VStr "intentional failure")] 500).
Proof.
  exact (proj1 (error_rate_out_of_range
                  (Flask.push (get "/error" [("rate", "2.5")]) (boot calm))
                  2.5%float eq_refl eq_refl eq_refl) eq_refl).
Defined.

(* ----------------------------------------------------------------- *)
(** ** The completion hook without a start timestamp *)

(** A float that is not above zero; NaN is let through. *)
Definition nonpos_SF (x : spec_float) : Prop :=
  match x with
  | S754_finite false _ _ => False
  | S754_infinity false => False
  | _ => True
  end.

Lemma binary_normalize_nonpos (z ez : Z) :
  z <= 0 -> nonpos_SF (binary_normalize prec emax z ez false).
Proof.
  intros H. unfold binary_normalize.
  destruct z as [|p|p]; [exact I | lia |].
  pose proof (binary_round_sign true p ez) as S.
  destruct (binary_round prec emax true p ez); simpl; subst; exact I.
Qed.

Lemma SFsub_nonpos (x y : spec_float) :
  valid_binary x = true -> valid_binary y = true ->
  SFleb x y = true -> nonpos_SF (SFsub prec emax x y).
Proof.
  intros Vx Vy Hle.
  destruct x as [sx|sx| |sx mx ex], y as [sy|sy| |sy my ey];
    try discriminate Hle;
    try (destruct sx, sy; try discriminate Hle; exact I);
    try (destruct sx; try discriminate Hle; exact I);
    try (destruct sy; try discriminate Hle; exact I).
  simpl in Vx, Vy. unfold SFsub.
  apply binary_normalize_nonpos.
  pose proof (aligned_le _ _ _ _ _ _ Vx Vy Hle) as A. unfold aligned in A.
  rewrite (Z.min_comm ex ey). lia.
Qed.

Lemma SFmul_nonpos (x y : spec_float) :
  nonpos_SF x -> nonneg_SF y -> nonpos_SF (SFmul prec emax x y).
Proof.
  intros Hx Hy.
  destruct x as [sx|sx| |sx mx ex], y as [sy|sy| |sy my ey]; simpl;
    try exact I;
    try (destruct sx; try contradiction); try (destruct sy; try contradiction);
    try exact I.
  pose proof (binary_round_aux_sign true (Zpos (mx * my)) (ex + ey) loc_Exact)
    as S. simpl xorb.
  destruct (binary_round_aux prec emax true (Zpos (mx * my)) (ex + ey)
              loc_Exact); simpl; subst; exact I.
Qed.

Lemma int_of_float_nonpos (f : float) (d : Z) :
  nonpos_SF (Prim2SF f) -> Py.int_of_float f = Ret d -> d <= 0.
Proof.
  unfold Py.int_of_float.
  destruct (Prim2SF f) as [s|s| |s m e]; try discriminate.
  - intros _ [= <-]. lia.
  - destruct s; [|contradiction].
    pose proof (Pos2Z.is_pos m) as Hz.
    set (z := Zpos m) in *. clearbody z. unfold cond_Zopp.
    intros _ [= <-].
    destruct (0 <=? e) eqn:He.
    + assert (0 <= 2 ^ e) by (apply Z.pow_nonneg; lia). nia.
    + apply Z.leb_gt in He.
      assert (P : 0 < 2 ^ (- e)) by (apply Z.pow_pos_nonneg; lia).
      rewrite Z.quot_opp_l by lia.
      assert (0 <= Z.quot z (2 ^ (- e))) by (apply Z.quot_pos; lia).
      lia.
Qed.

(** X11.  When the request carries no start timestamp, the hook takes a
    fresh clock reading as the start, and takes it after the reading it uses
    as the end: on a clock that does not go back the latency it reports is
    zero or negative, never the time the request took. *)
Theorem latency_without_start :
  forall (w : world) (resp : response) (d : Z),
    _start (current_request w) = None ->
    (clock (out w) (clock_reads w) <=? clock (out w) (S (clock_reads w)))%float
    = true ->
    Py.int_of_float (elapsed w) = Ret d ->
    elapsed w
    = ((clock (out w) (clock_reads w) - clock (out w) (S (clock_reads w)))
       * 1000)%float
    /\ d <= 0
    /\ (no_faults (out w) ->
        events (snd (_after resp w)) = events w ++ report w resp d).
Proof.
  intros w resp d Hs Hle Hd.
  assert (He : elapsed w
               = ((clock (out w) (clock_reads w)
                   - clock (out w) (S (clock_reads w))) * 1000)%float)
    by (unfold elapsed; now rewrite Hs).
  split; [exact He | split].
  - apply (int_of_float_nonpos (elapsed w)); [|exact Hd].
    rewrite He, mul_spec, sub_spec. rewrite leb_spec in Hle.
    apply SFmul_nonpos.
    + apply SFsub_nonpos; [apply Prim2SF_valid | apply Prim2SF_valid
                           | exact Hle].
    + vm_compute. exact I.
  - intros Hn. now rewrite (after_ok resp w d Hn Hd).
Qed.

Lemma latency_without_start_witness :
  elapsed (boot calm)
  = ((clock (out (boot calm)) (clock_reads (boot calm))
      - clock (out (boot calm)) (S (clock_reads (boot calm)))) * 1000)%float
  /\ -250 <= 0
  /\ (no_faults (out (boot calm)) ->
      events (snd (_after (json_response [("ok", VBool true)] 200) (boot calm)))
      = events (boot calm)
        ++ report (boot calm) (json_response [("ok", VBool true)] 200) (-250)).
Proof.
  exact (latency_without_start (boot calm) (json_response [("ok", VBool true)] 200)
           (-250) eq_refl eq_refl eq_refl).
Defined.

(* ----------------------------------------------------------------- *)
(** ** [/slow] with the cache, request after request *)








(* ----------------------------------------------------------------- *)
(** ** Squares too long to write *)

Section Numerals.

Import Py.










End Numerals.







(** X14.  What survives a failing telemetry call.  The completion hook
    adds events and nothing else; among them the counter increment is there
    exactly when the elapsed time converts and the counter call does not
    raise, and the log line exactly when, besides, none of the histogram
    call, the trace-id read and the logger raises. *)
Theorem completion_hook_steps :
  forall (w : world) (resp : response),
    exists evs : list event,
      snd (_after resp w)
      = set_events (events w ++ evs) (tick_clock (tick_clock w))
      /\ ((exists a t, In (CounterAdd "requests_total" a t) evs)
          <-> ((exists d, Py.int_of_float (elapsed w) = Ret d)
               /\ telemetry_fault (out w) CounterAddCall = None))
      /\ ((exists p, In (LogLine p) evs)
          <-> ((exists d, Py.int_of_float (elapsed w) = Ret d)
               /\ no_faults (out w))).
Proof.
  intros w resp. exists (completion_events w resp).
  split; [apply after_world|].
  unfold completion_events, emitted, no_faults.
  destruct (Py.int_of_float (elapsed w)) as [d|e].
  - destruct (telemetry_fault (out w) CounterAddCall) as [e1|] eqn:F1.
    { split; split.
      - intros (a & t & []).
      - intros (_ & H). discriminate.
      - intros (p & []).
      - intros (_ & H). rewrite H in F1. discriminate. }
    destruct (telemetry_fault (out w) HistogramRecordCall) as [e2|] eqn:F2.
    { split; split.
      - intros _. split; [now exists d | reflexivity].
      - intros _. do 2 eexists. left. reflexivity.
      - intros (p & [H|[]]). discriminate.
      - intros (_ & H). rewrite H in F2. discriminate. }
    destruct (telemetry_fault (out w) CurrentSpanCall) as [e3|] eqn:F3.
    { split; split.
      - intros _. split; [now exists d | reflexivity].
      - intros _. do 2 eexists. left. reflexivity.
      - intros (p & [H|[H|[]]]); discriminate.
      - intros (_ & H). rewrite H in F3. discriminate. }
    destruct (telemetry_fault (out w) LogCall) as [e4|] eqn:F4.
    { split; split.
      - intros _. split; [now exists d | reflexivity].
      - intros _. do 2 eexists. left. reflexivity.
      - intros (p & [H|[H|[]]]); discriminate.
      - intros (_ & H). rewrite H in F4. discriminate. }
    split; split.
    + intros _. split; [now exists d | reflexivity].
    + intros _. do 2 eexists. left. reflexivity.
    + intros _. split; [now exists d|]. intros []; assumption.
    + intros _. eexists. right. right. left. reflexivity.
  - split; split.
    + intros (a & t & []).
    + intros ((d & H) & _). discriminate.
    + intros (p & []).
    + intros ((d & H) & _). discriminate.
Qed.
